(** * news/signals.py: the signal handlers of the news application

    A shallow embedding of [news/signals.py].  The handlers are Django signal
    receivers: short sequences of persistence calls, cache deletions, e-mail
    calls and log lines, some of them wrapped in [try]/[except].  They are
    embedded as computations in a state-and-exception monad over a [World]
    that holds the database tables the handlers touch, the cache, the
    transaction state of the connection and a trace of the effects that
    leave the process (log lines, e-mails, cache deletions, group grants). *)

From Stdlib Require Import ZArith String List Bool Lia DecimalString DecimalZ DecimalPos.
From stdpp Require Import base gmap sets list strings.

Open Scope Z_scope.

(** ** Data model *)

(** [django.contrib.auth.models.User], the attributes the handlers read. *)
Record User := mkUser {
  user_id : Z;
  username : string;
  email : string;
  is_staff : bool }.

Record Category := mkCategory {
  category_id : Z;
  category_name : string }.

(** Modelled from the spec: the constants [Post.NEWS] and [Post.ARTICLE] are
    declared in [models.py], which is not part of the sources; the type of a
    post is NEWS or ARTICLE.  The field is a character column, so a stored
    row can carry another code as well. *)
Inductive post_type :=
| NEWS
| ARTICLE
| OTHER (code : string).

Record Post := mkPost {
  pk : Z;
  title : string;
  ptype : post_type;
  categories : list Z;
  post_author : Z }.

(** An [Author] row; its primary key is the key of the table. *)
Record Author := mkAuthor {
  author_user : User }.

Record ActivationToken := mkToken {
  token_pk : Z;
  token_user : User;
  token : string;
  activated : bool;
  created_at : Z }.

Record Subscription := mkSubscription {
  sub_user : User;
  sub_category : Category }.

Record Comment := mkComment {
  comment_user : User;
  comment_post : Post }.

(** [sociallogin]: the user and [sociallogin.account.provider]. *)
Record SocialLogin := mkSocialLogin {
  social_user : User;
  provider : string }.

#[global] Instance post_type_eq_dec : EqDecision post_type.
Proof. solve_decision. Defined.

(** ** Exceptions, log lines and effects *)

Inductive model := PostModel | AuthorModel | TokenModel.

(** The collaborators a handler calls out to. *)
Inductive service := Persistence | GroupStore | CacheService | EmailSvc.

Inductive exn :=
| DoesNotExist (m : model)
| MultipleObjectsReturned (m : model)
| CollaboratorError (s : service).

Inductive level := DEBUG | INFO | ERROR.

(** One constructor per [logger] call of the file: the f-string template,
    with the values interpolated into it as arguments. *)
Inductive log_msg :=
| SignupStarted (user_email : string)
| SignupDone (user_email : string) (author_created : bool)
| SignupFailed (user_email : string) (e : exn)
| SocialSignup (user_email provider_name : string)
| BackupUserHandling (name : string)
| AuthorProfileCreated (name : string)
| AuthorGroupsRemoved (name : string)
| GroupCleanupFailed (e : exn)
| M2MSignal (action post_title : string)
| CategoriesAdded (post_title : string)
| PostCreated (post_title : string) (display : post_type)
| NotificationsScheduled
| CachePurgedAfterPost
| NotifyStart (post_title : string) (post_pk : Z)
| NewsNotified
| ArticleNotified
| PostNotFound (post_pk : Z)
| NotifyCriticalError (e : exn)
| AccountActivated (name : string)
| ActivationMailSent (user_email : string)
| AddedToAuthors (name : string)
| ActivationFailed (e : exn)
| NewSubscription (name cat : string)
| SubscriptionRemoved (name cat : string)
| NewComment (name post_title : string)
| TokensCleaned (count : Z)
| TokenCleanupFailed (e : exn)
| ArticleForDigest (post_title : string).

(** What leaves the process, in the order it happens. *)
Inductive event :=
| Log (lvl : level) (m : log_msg)
| StdOut (m : log_msg)
| WelcomeEmail (u : User) (activation_url : string)
| ActivationSuccessEmail (u : User)
| SubscribersNotified (p : Post)
| ImmediateArticleNotification (p : Post)
| CacheDelete (key : string)
| GroupAdd (uid : Z) (group : string).

(** A callback handed to [transaction.on_commit].  The only one in the file is
    [lambda: process_post_notifications(instance)], which closes over the
    in-memory instance of the signal. *)
Inductive deferred :=
| NotifyPost (instance : Post).

Inductive result (A : Type) :=
| Ok (a : A)
| Raise (e : exn).
Arguments Ok {A} a.
Arguments Raise {A} e.

(** A Python return value, for the function whose result the callers see. *)
Inductive pyval :=
| PyNone
| PyInt (n : Z).

(** ** The world *)

Record DB := mkDB {
  groups : gset string;               (* Group rows, by name *)
  user_groups : gset (Z * string);    (* User.groups: (user id, group name) *)
  authors : gmap Z Author;
  tokens : gmap Z ActivationToken;
  posts : gmap Z Post }.

(** [faults] is the failure schedule of the collaborators: every call to the
    database, the group store, the cache or the e-mail service consumes its
    head and raises when it is [true]; an exhausted schedule means that no
    further call fails. *)
Record World := mkWorld {
  db : DB;
  cache : gset string;
  now : Z;                            (* timezone.now(), in microseconds *)
  SITE_URL : string;                  (* settings.SITE_URL *)
  uuids : list string;                (* supply of fresh token values *)
  in_atomic_block : bool;
  run_on_commit : list deferred;
  faults : list bool;
  trace : list event }.

Definition set_db (d : DB) (w : World) : World :=
  mkWorld d (cache w) (now w) (SITE_URL w) (uuids w) (in_atomic_block w)
          (run_on_commit w) (faults w) (trace w).
Definition set_cache (c : gset string) (w : World) : World :=
  mkWorld (db w) c (now w) (SITE_URL w) (uuids w) (in_atomic_block w)
          (run_on_commit w) (faults w) (trace w).
Definition set_uuids (u : list string) (w : World) : World :=
  mkWorld (db w) (cache w) (now w) (SITE_URL w) u (in_atomic_block w)
          (run_on_commit w) (faults w) (trace w).
Definition set_txn (a : bool) (q : list deferred) (w : World) : World :=
  mkWorld (db w) (cache w) (now w) (SITE_URL w) (uuids w) a q (faults w) (trace w).
Definition set_faults (f : list bool) (w : World) : World :=
  mkWorld (db w) (cache w) (now w) (SITE_URL w) (uuids w) (in_atomic_block w)
          (run_on_commit w) f (trace w).
Definition emit (e : event) (w : World) : World :=
  mkWorld (db w) (cache w) (now w) (SITE_URL w) (uuids w) (in_atomic_block w)
          (run_on_commit w) (faults w) (trace w ++ [e]).

Definition set_groups (g : gset string) (ug : gset (Z * string)) (d : DB) : DB :=
  mkDB g ug (authors d) (tokens d) (posts d).
Definition set_authors (a : gmap Z Author) (d : DB) : DB :=
  mkDB (groups d) (user_groups d) a (tokens d) (posts d).
Definition set_tokens (t : gmap Z ActivationToken) (d : DB) : DB :=
  mkDB (groups d) (user_groups d) (authors d) t (posts d).

(** ** The monad: state and exceptions *)

Definition M (A : Type) : Type := World → result A * World.

Definition ret {A} (a : A) : M A := λ w, (Ok a, w).

Definition bind {A B} (m : M A) (k : A → M B) : M B := λ w,
  match m w with
  | (Ok a, w') => k a w'
  | (Raise e, w') => (Raise e, w')
  end.

Definition raise {A} (e : exn) : M A := λ w, (Raise e, w).

(** [try: body / except Exception as e: handler e]. *)
Definition try_except {A} (body : M A) (handler : exn → M A) : M A := λ w,
  match body w with
  | (Ok a, w') => (Ok a, w')
  | (Raise e, w') => handler e w'
  end.

Definition gets {A} (f : World → A) : M A := λ w, (Ok (f w), w).
Definition modify (f : World → World) : M unit := λ w, (Ok tt, f w).
Definition modify_db (f : DB → DB) : M unit := modify (λ w, set_db (f (db w)) w).

Declare Scope py_scope.
Delimit Scope py_scope with py.
Notation "x <- m ;; k" := (bind m (λ x, k))
  (at level 100, m at next level, right associativity) : py_scope.
Notation "m ;; k" := (bind m (λ _, k))
  (at level 100, right associativity) : py_scope.
Open Scope py_scope.

Definition when (b : bool) (m : M unit) : M unit := if b then m else ret tt.

Fixpoint for_each {A} (l : list A) (body : A → M unit) : M unit :=
  match l with
  | [] => ret tt
  | x :: l' => body x ;; for_each l' body
  end.

(** A call to a collaborator: it fails when the schedule says so. *)
Definition call (s : service) : M unit := λ w,
  match faults w with
  | [] => (Ok tt, w)
  | false :: fs => (Ok tt, set_faults fs w)
  | true :: fs => (Raise (CollaboratorError s), set_faults fs w)
  end.

(** ** Collaborators *)

(** [logger.<lvl>(...)] and [print(...)]: never raise. *)
Definition logger (lvl : level) (m : log_msg) : M unit := modify (emit (Log lvl m)).
Definition print (m : log_msg) : M unit := modify (emit (StdOut m)).

(** [str(n)] for an integer, as an f-string interpolates it. *)
Definition str (n : Z) : string := NilZero.string_of_int (Z.to_int n).

(** [cache.delete(key)]. *)
Definition cache_delete (key : string) : M unit :=
  call CacheService ;;
  modify (λ w, set_cache (cache w ∖ {[key]}) w) ;;
  modify (emit (CacheDelete key)).

(** [Group.objects.get_or_create(name=...)]: the group and whether it was created. *)
Definition Group_objects_get_or_create (name : string) : M (string * bool) :=
  call GroupStore ;;
  d <- gets db ;;
  if bool_decide (name ∈ groups d) then ret (name, false)
  else modify_db (λ d, set_groups ({[name]} ∪ groups d) (user_groups d) d) ;;
       ret (name, true).

(** [user.groups.add(group)]. *)
Definition groups_add (user : User) (group : string) : M unit :=
  call GroupStore ;;
  modify_db (λ d, set_groups (groups d) ({[(user_id user, group)]} ∪ user_groups d) d) ;;
  modify (emit (GroupAdd (user_id user) group)).

(** [user.groups.filter(name=...).exists()]. *)
Definition groups_filter_exists (user : User) (name : string) : M bool :=
  call GroupStore ;;
  d <- gets db ;;
  ret (bool_decide ((user_id user, name) ∈ user_groups d)).

(** [user.groups.filter(name=...).delete()]: deletes the Group rows of that
    name the user belongs to, and with them every membership in the group. *)
Definition groups_filter_delete (user : User) (name : string) : M unit :=
  call GroupStore ;;
  d <- gets db ;;
  when (bool_decide ((user_id user, name) ∈ user_groups d))
    (modify_db (λ d, set_groups (groups d ∖ {[name]})
                                (filter (λ p, p.2 ≠ name) (user_groups d)) d)).

(** The Author rows of a user. *)
Definition authors_of (user : User) (d : DB) : list (Z * Author) :=
  map_to_list (filter (λ kv, user_id (author_user kv.2) = user_id user) (authors d)).

(** [Author.objects.create(user=user)].  No receiver of this file listens to
    [post_save] of Author. *)
Definition Author_objects_create (user : User) : M Author :=
  call Persistence ;;
  let author := mkAuthor user in
  modify_db (λ d, set_authors (<[fresh (dom (authors d)) := author]> (authors d)) d) ;;
  ret author.

(** [Author.objects.get_or_create(user=user)]. *)
Definition Author_objects_get_or_create (user : User) : M (Author * bool) :=
  call Persistence ;;
  d <- gets db ;;
  match authors_of user d with
  | [] => author <- Author_objects_create user ;; ret (author, true)
  | [(_, author)] => ret (author, false)
  | _ => raise (MultipleObjectsReturned AuthorModel)
  end.

(** Modelled from the spec: the Author model of [models.py] is not part of
    the sources; an author profile refers back to its user, one to one.
    [hasattr(instance, 'author')] then is the reverse one-to-one accessor: it
    looks the Author row of the user up, and only a missing row is turned
    into [False]. *)
Definition hasattr_author (instance : User) : M bool :=
  call Persistence ;;
  d <- gets db ;;
  ret (negb (bool_decide (authors_of instance d = []))).

(** Modelled from the spec: [services/email_service.py] and the method
    [Post.send_notifications_to_subscribers] of [models.py] are not part of
    the sources.  Each is a call to the e-mail collaborator that may fail on
    its own and otherwise sends its message. *)
Definition EmailService_send_welcome_email (user : User) (activation_url : string) : M unit :=
  call EmailSvc ;; modify (emit (WelcomeEmail user activation_url)).
Definition EmailService_send_activation_success_email (user : User) : M unit :=
  call EmailSvc ;; modify (emit (ActivationSuccessEmail user)).
Definition EmailService_send_immediate_article_notification (post : Post) : M unit :=
  call EmailSvc ;; modify (emit (ImmediateArticleNotification post)).
Definition send_notifications_to_subscribers (post : Post) : M unit :=
  call EmailSvc ;; modify (emit (SubscribersNotified post)).

(** [Post.objects.select_related(...).prefetch_related(...).get(pk=pk)]. *)
Definition Post_objects_get (key : Z) : M Post :=
  call Persistence ;;
  d <- gets db ;;
  match posts d !! key with
  | Some post => ret post
  | None => raise (DoesNotExist PostModel)
  end.

(** [instance.categories.exists()]: a query on the stored relation. *)
Definition categories_exists (instance : Post) : M bool :=
  call Persistence ;;
  d <- gets db ;;
  ret (match posts d !! pk instance with
       | Some row => negb (bool_decide (categories row = []))
       | None => false
       end).

(** ** The deferred action *)

(** The [try] block of [process_post_notifications]. *)
Definition process_post_notifications_try (post : Post) : M unit :=
  refreshed_post <- Post_objects_get (pk post) ;;
  match ptype refreshed_post with
  | NEWS =>
      send_notifications_to_subscribers refreshed_post ;;
      logger INFO NewsNotified
  | ARTICLE =>
      EmailService_send_immediate_article_notification refreshed_post ;;
      logger INFO ArticleNotified
  | OTHER _ => ret tt
  end.

(** What its two [except] clauses log: [Post.DoesNotExist] first, then
    [Exception]. *)
Definition process_post_notifications_except (post : Post) (e : exn) : log_msg :=
  match e with
  | DoesNotExist PostModel => PostNotFound (pk post)
  | _ => NotifyCriticalError e
  end.

Definition process_post_notifications (post : Post) : M unit :=
  logger INFO (NotifyStart (title post) (pk post)) ;;
  try_except
    (process_post_notifications_try post)
    (λ e, logger ERROR (process_post_notifications_except post e)).

(** ** Transactions: [django.db.transaction]

    [transaction.on_commit(func)] as the persistence layer provides it: inside
    an atomic block the callback is appended to the connection's
    [run_on_commit] list; with no transaction open (autocommit) it is called
    at once.  On commit the list is emptied and the callbacks run in order; on
    rollback the list is dropped and the tables are restored. *)

Definition run_deferred (func : deferred) : M unit :=
  match func with
  | NotifyPost instance => process_post_notifications instance
  end.

Definition transaction_on_commit (func : deferred) : M unit := λ w,
  if in_atomic_block w
  then (Ok tt, set_txn true (run_on_commit w ++ [func]) w)
  else run_deferred func w.

Fixpoint run_hooks (fs : list deferred) : M unit :=
  match fs with
  | [] => ret tt
  | func :: fs' => run_deferred func ;; run_hooks fs'
  end.

(** The commit of the open transaction: leave the atomic block, empty
    [run_on_commit] and run what it held. *)
Definition commit : M unit := λ w,
  run_hooks (run_on_commit w) (set_txn false [] w).

(** The rollback to the tables as they were when the block was entered. *)
Definition rollback (saved : DB) : M unit :=
  modify (λ w, set_txn false [] (set_db saved w)).

(** [with transaction.atomic(): body].  The outermost block commits when the
    body returns and rolls back when it raises.  A nested block is a
    savepoint: when its body returns, its writes and callbacks stay with the
    enclosing transaction; when it raises, the tables go back to the
    savepoint, the callbacks registered since are discarded, those registered
    before stay, and the exception goes on to the enclosing block. *)
Definition atomic {A} (body : M A) : M A := λ w,
  if in_atomic_block w
  then match body w with
       | (Ok a, w') => (Ok a, w')
       | (Raise e, w') => (Raise e, set_txn true (run_on_commit w) (set_db (db w) w'))
       end
  else match body (set_txn true (run_on_commit w) w) with
       | (Ok a, w') => (commit ;; ret a) w'
       | (Raise e, w') => (rollback (db w) ;; raise e) w'
       end.

(** ** Signal receivers: activation tokens *)

(** The [try] block of [handle_activation_token_save]. *)
Definition handle_activation_token_save_try (instance : ActivationToken) : M unit :=
  EmailService_send_activation_success_email (token_user instance) ;;
  logger INFO (ActivationMailSent (email (token_user instance))) ;;
  is_author <- groups_filter_exists (token_user instance) "authors" ;;
  when (negb is_author)
    (r <- Group_objects_get_or_create "authors" ;;
     let '(authors_group, _) := r in
     groups_add (token_user instance) authors_group ;;
     logger INFO (AddedToAuthors (username (token_user instance)))).

Definition handle_activation_token_save (instance : ActivationToken) (created : bool) : M unit :=
  when (activated instance && negb created)
    (logger INFO (AccountActivated (username (token_user instance))) ;;
     try_except
       (handle_activation_token_save_try instance)
       (λ e, logger ERROR (ActivationFailed e))).

(** The tokens of a user, as instances: a fetched instance carries the
    primary key of its row. *)
Definition at_pk (key : Z) (row : ActivationToken) : ActivationToken :=
  mkToken key (token_user row) (token row) (activated row) (created_at row).

Definition tokens_of (user : User) (d : DB) : list ActivationToken :=
  (λ kv, at_pk kv.1 kv.2) <$>
  map_to_list (filter (λ kv, user_id (token_user kv.2) = user_id user) (tokens d)).

(** [instance.save()] of an ActivationToken: the row with the instance's
    primary key is updated, or inserted when there is none, and [post_save] is
    sent to its one receiver with [created] telling which happened. *)
Definition ActivationToken_save (instance : ActivationToken) : M unit :=
  call Persistence ;;
  d <- gets db ;;
  let created := bool_decide (tokens d !! token_pk instance = None) in
  modify_db (λ d, set_tokens (<[token_pk instance := instance]> (tokens d)) d) ;;
  handle_activation_token_save instance created.

(** Modelled from the spec: the ActivationToken model of [models.py] is not
    part of the sources.  A new token belongs to the user, carries a fresh
    token value and the creation time, and is not activated; creating it
    saves it under a fresh primary key. *)
Definition ActivationToken_objects_create (user : User) : M ActivationToken :=
  d <- gets db ;;
  t <- gets now ;;
  us <- gets uuids ;;
  modify (set_uuids (tl us)) ;;
  let instance := mkToken (fresh (dom (tokens d))) user (hd EmptyString us) false t in
  ActivationToken_save instance ;;
  ret instance.

(** Modelled from the spec: [ActivationToken.create_token(user)] of
    [models.py], which is not part of the sources: a new unactivated token
    for the user. *)
Definition ActivationToken_create_token (user : User) : M ActivationToken :=
  ActivationToken_objects_create user.

(** [ActivationToken.objects.get_or_create(user=user)]. *)
Definition ActivationToken_objects_get_or_create (user : User) : M (ActivationToken * bool) :=
  call Persistence ;;
  d <- gets db ;;
  match tokens_of user d with
  | [] => instance <- ActivationToken_objects_create user ;; ret (instance, true)
  | [instance] => ret (instance, false)
  | _ => raise (MultipleObjectsReturned TokenModel)
  end.

(** [activation_token.activated = True]. *)
Definition set_activated (b : bool) (t : ActivationToken) : ActivationToken :=
  mkToken (token_pk t) (token_user t) (token t) b (created_at t).

(** ** Signal receivers: users and authors *)

(** The [try] block of [handle_user_signed_up]. *)
Definition handle_user_signed_up_try (user : User) : M unit :=
  r <- Group_objects_get_or_create "common" ;;
  let '(common_group, _) := r in
  groups_add user common_group ;;
  r <- Author_objects_get_or_create user ;;
  let '(_, author_created) := r in
  activation_token <- ActivationToken_create_token user ;;
  site <- gets SITE_URL ;;
  let activation_url := (site +:+ "/accounts/activate/" +:+ token activation_token +:+ "/")%string in
  EmailService_send_welcome_email user activation_url ;;
  logger INFO (SignupDone (email user) author_created).

Definition handle_user_signed_up (user : User) : M unit :=
  logger INFO (SignupStarted (email user)) ;;
  try_except
    (handle_user_signed_up_try user)
    (λ e, logger ERROR (SignupFailed (email user) e)).

Definition handle_social_signup (sociallogin : SocialLogin) : M unit :=
  let user := social_user sociallogin in
  logger INFO (SocialSignup (email user) (provider sociallogin)) ;;
  r <- ActivationToken_objects_get_or_create user ;;
  let '(activation_token, _) := r in
  let activation_token := set_activated true activation_token in
  ActivationToken_save activation_token.

Definition handle_user_post_save (instance : User) (created : bool) : M unit :=
  when (created && negb (is_staff instance))
    (logger INFO (BackupUserHandling (username instance)) ;;
     in_common <- groups_filter_exists instance "common" ;;
     when (negb in_common)
       (r <- Group_objects_get_or_create "common" ;;
        let '(common_group, _) := r in
        groups_add instance common_group ;;
        _ <- Author_objects_get_or_create instance ;;
        ret tt)).

Definition create_author_profile (instance : User) (created : bool) : M unit :=
  if created then
    has <- hasattr_author instance ;;
    when (negb has)
      (_ <- Author_objects_create instance ;;
       logger INFO (AuthorProfileCreated (username instance)))
  else ret tt.

(** The [try] block of [cleanup_user_group]. *)
Definition cleanup_user_group_try (instance : Author) : M unit :=
  groups_filter_delete (author_user instance) "authors" ;;
  logger INFO (AuthorGroupsRemoved (username (author_user instance))).

Definition cleanup_user_group (instance : Author) : M unit :=
  try_except
    (cleanup_user_group_try instance)
    (λ e, logger ERROR (GroupCleanupFailed e)).

(** ** Signal receivers: posts *)

Definition handle_post_categories_changed (instance : Post) (action : string) : M unit :=
  logger DEBUG (M2MSignal action (title instance)) ;;
  when (bool_decide (action = "post_add"%string))
    (logger INFO (CategoriesAdded (title instance)) ;;
     transaction_on_commit (NotifyPost instance)).

Definition handle_post_save (instance : Post) (created : bool) : M unit :=
  when created
    (logger INFO (PostCreated (title instance) (ptype instance)) ;;
     has_categories <- (if created then categories_exists instance else ret false) ;;
     when has_categories
       (logger INFO NotificationsScheduled ;;
        transaction_on_commit (NotifyPost instance)) ;;
     let cache_keys := ["latest_news"; "news_list"; "post_" +:+ str (pk instance); "categories_list"]%string in
     for_each cache_keys cache_delete ;;
     logger DEBUG CachePurgedAfterPost).

Definition handle_new_article_for_weekly_digest (instance : Post) (created : bool) : M unit :=
  when (created && bool_decide (ptype instance = ARTICLE))
    (logger INFO (ArticleForDigest (title instance))).

(** ** Signal receivers: subscriptions and comments *)

Definition handle_new_subscription (instance : Subscription) (created : bool) : M unit :=
  when created
    (logger INFO (NewSubscription (username (sub_user instance)) (category_name (sub_category instance))) ;;
     print (NewSubscription (username (sub_user instance)) (category_name (sub_category instance))) ;;
     cache_delete ("user_" +:+ str (user_id (sub_user instance)) +:+ "_subscriptions") ;;
     cache_delete ("category_" +:+ str (category_id (sub_category instance)) +:+ "_subscribers_count")).

Definition handle_subscription_removed (instance : Subscription) : M unit :=
  logger INFO (SubscriptionRemoved (username (sub_user instance)) (category_name (sub_category instance))) ;;
  cache_delete ("user_" +:+ str (user_id (sub_user instance)) +:+ "_subscriptions") ;;
  cache_delete ("category_" +:+ str (category_id (sub_category instance)) +:+ "_subscribers_count").

Definition handle_new_comment (instance : Comment) (created : bool) : M unit :=
  when created
    (logger INFO (NewComment (username (comment_user instance)) (title (comment_post instance))) ;;
     cache_delete ("post_" +:+ str (pk (comment_post instance)) +:+ "_comments") ;;
     cache_delete ("post_" +:+ str (pk (comment_post instance)) +:+ "_comments_count")).

(** ** The retention sweep *)

(** [timezone.timedelta(days=n)], in microseconds. *)
Definition timedelta_days (n : Z) : Z := n * 86400 * 1000000.

(** The filter [activated=False, created_at__lt=cutoff]. *)
Definition expired (cutoff : Z) (t : ActivationToken) : Prop :=
  activated t = false ∧ created_at t < cutoff.

#[global] Instance expired_dec cutoff t : Decision (expired cutoff t).
Proof. unfold expired. apply _. Defined.

Definition expired_tokens (cutoff : Z) (d : DB) : gmap Z ActivationToken :=
  filter (λ kv, expired cutoff kv.2) (tokens d).

(** [expired_tokens.count()] and [expired_tokens.delete()]: the queryset is
    lazy, each of the two runs its own query with the same filter. *)
Definition QuerySet_count (cutoff : Z) : M Z :=
  call Persistence ;;
  d <- gets db ;;
  ret (Z.of_nat (size (expired_tokens cutoff d))).

Definition QuerySet_delete (cutoff : Z) : M unit :=
  call Persistence ;;
  modify_db (λ d, set_tokens (filter (λ kv, ¬ expired cutoff kv.2) (tokens d)) d).

(** The [try] block of [cleanup_expired_tokens]. *)
Definition cleanup_expired_tokens_try : M unit :=
  t <- gets now ;;
  let cutoff := t - timedelta_days 7 in
  count <- QuerySet_count cutoff ;;
  when (0 <? count)
    (QuerySet_delete cutoff ;;
     logger INFO (TokensCleaned count)).

(** The function has no [return] statement: it evaluates to [None]. *)
Definition cleanup_expired_tokens : M pyval :=
  try_except
    cleanup_expired_tokens_try
    (λ e, logger ERROR (TokenCleanupFailed e)) ;;
  ret PyNone.

(** ** Signal dispatch

    [Signal.send] calls the receivers of a signal in the order they were
    connected; an exception of one of them propagates to the sender. *)

Inductive post_event :=
| PostSaved (instance : Post) (created : bool)          (* post_save, sender=Post *)
| CategoriesChanged (instance : Post) (action : string). (* m2m_changed, Post.categories *)

Definition send_post_event (ev : post_event) : M unit :=
  match ev with
  | PostSaved instance created =>
      handle_post_save instance created ;;
      handle_new_article_for_weekly_digest instance created
  | CategoriesChanged instance action =>
      handle_post_categories_changed instance action
  end.

Definition event_post (ev : post_event) : Post :=
  match ev with
  | PostSaved instance _ => instance
  | CategoriesChanged instance _ => instance
  end.

(** The guards of the two receivers that schedule a notification:
    [created and instance.categories.exists()] and [action == "post_add"]. *)
Definition guard (ev : post_event) (d : DB) : bool :=
  match ev with
  | PostSaved instance created =>
      created && match posts d !! pk instance with
                 | Some row => negb (bool_decide (categories row = []))
                 | None => false
                 end
  | CategoriesChanged _ action => bool_decide (action = "post_add"%string)
  end.

Inductive subscription_event :=
| SubscriptionSaved (instance : Subscription) (created : bool)  (* post_save *)
| SubscriptionDeleted (instance : Subscription).                (* post_delete *)

Definition send_subscription_event (ev : subscription_event) : M unit :=
  match ev with
  | SubscriptionSaved instance created => handle_new_subscription instance created
  | SubscriptionDeleted instance => handle_subscription_removed instance
  end.

(** The three receivers that provision an Author for a user. *)
Inductive provisioning :=
| ViaSignUp (user : User)                         (* handle_user_signed_up *)
| ViaBackup (instance : User) (created : bool)    (* handle_user_post_save *)
| ViaProfile (instance : User) (created : bool).  (* create_author_profile *)

Definition provision (p : provisioning) : M unit :=
  match p with
  | ViaSignUp user => handle_user_signed_up user
  | ViaBackup instance created => handle_user_post_save instance created
  | ViaProfile instance created => create_author_profile instance created
  end.

(** A sequence of receiver calls, each in a request of its own: the world a
    call leaves behind is the one the next call starts in, whether the call
    returned or raised. *)
Fixpoint provision_all (ps : list provisioning) (w : World) : World :=
  match ps with
  | [] => w
  | p :: ps' => provision_all ps' (provision p w).2
  end.

(** ** Observations on a trace *)

(** The recipients of the activation-success e-mails. *)
Definition success_emails (tr : list event) : list User :=
  omap (λ e, match e with ActivationSuccessEmail u => Some u | _ => None end) tr.

(** The group grants: the calls of [user.groups.add]. *)
Definition grants (tr : list event) : list (Z * string) :=
  omap (λ e, match e with GroupAdd uid g => Some (uid, g) | _ => None end) tr.

(** The keys [cache.delete] was called with. *)
Definition cache_deletes (tr : list event) : list string :=
  omap (λ e, match e with CacheDelete key => Some key | _ => None end) tr.

(** The runs of the deferred action, by the primary key of the post each was
    started for: the action logs its start before anything else. *)
Definition started (tr : list event) : list Z :=
  omap (λ e, match e with Log INFO (NotifyStart _ key) => Some key | _ => None end) tr.

(** The notifications that were sent for posts. *)
Definition notifications (tr : list event) : list event :=
  omap (λ e, match e with
             | SubscribersNotified _ | ImmediateArticleNotification _ => Some e
             | _ => None
             end) tr.

(** The messages logged at error level. *)
Definition errors (tr : list event) : list log_msg :=
  omap (λ e, match e with Log ERROR m => Some m | _ => None end) tr.

Definition deferred_pk (func : deferred) : Z :=
  match func with NotifyPost instance => pk instance end.

(** The two cache keys of a subscription. *)
Definition subscription_keys (s : Subscription) : list string :=
  [("user_" +:+ str (user_id (sub_user s)) +:+ "_subscriptions")%string;
   ("category_" +:+ str (category_id (sub_category s)) +:+ "_subscribers_count")%string].

(** The keys a subscription event is to delete: both keys on a creation and
    on a deletion, none when an existing subscription is saved. *)
Definition subscription_deletes (ev : subscription_event) : list string :=
  match ev with
  | SubscriptionSaved s true => subscription_keys s
  | SubscriptionSaved _ false => []
  | SubscriptionDeleted s => subscription_keys s
  end.

(** ** Invariants and outcomes *)

(** At most one Author row per user. *)
Definition one_author_per_user (d : DB) : Prop :=
  ∀ user : User, (length (authors_of user d) ≤ 1)%nat.

(** The same on the table: two rows of one user are one row. *)
Definition unique_users (au : gmap Z Author) : Prop :=
  ∀ k1 k2 a1 a2, au !! k1 = Some a1 → au !! k2 = Some a2 →
    user_id (author_user a1) = user_id (author_user a2) → k1 = k2.

(** A computation keeps a property of the Author table, whether it returns
    or raises. *)
Definition preserves {A} (J : gmap Z Author → Prop) (m : M A) : Prop :=
  ∀ w, J (authors (db w)) → J (authors (db (m w).2)).

(** A receiver whose body is [try: body / except Exception as e:
    logger.error(msg e)] after a prologue: whatever the body does, the
    receiver returns [r]; an exception of the body is logged and goes no
    further. *)
Definition swallows {A B} (receiver : M B) (r : B) (prologue : World → World)
    (body : M A) (msg : exn → log_msg) : Prop :=
  ∀ w, match body (prologue w) with
       | (Ok _, w1) => receiver w = (Ok r, w1)
       | (Raise e, w1) => receiver w = (Ok r, emit (Log ERROR (msg e)) w1)
       end.

(** ** Sample worlds *)

Definition alice : User := mkUser 1 "alice" "alice@example.org" false.
Definition bob : User := mkUser 2 "bob" "bob@example.org" false.

Definition empty_db : DB := mkDB ∅ ∅ ∅ ∅ ∅.

Definition world_of (d : DB) : World :=
  mkWorld d ∅ 0 "https://news.example.org" ["0f3a"; "91bc"]%string false [] [] [].

Definition w_empty : World := world_of empty_db.

(** Alice has activated her account and is in the authors group. *)
Definition alice_token : ActivationToken := mkToken 1 alice "0f3a" true 0.
Definition w_activated : World :=
  world_of (mkDB {["authors"%string]} {[(1, "authors"%string)]} ∅ {[1 := alice_token]} ∅).

(** Bob's token exists and is not activated yet. *)
Definition bob_token : ActivationToken := mkToken 2 bob "91bc" false 0.
Definition w_pending : World :=
  world_of (mkDB ∅ ∅ ∅ {[2 := bob_token]} ∅).

(** A news post with one category, inside an open transaction. *)
Definition budget : Post := mkPost 7 "Budget approved" NEWS [3] 1.
Definition essay : Post := mkPost 8 "On budgets" ARTICLE [3] 1.
Definition w_txn : World :=
  set_txn true [] (world_of (mkDB ∅ ∅ ∅ ∅ {[7 := budget; 8 := essay]})).

(** Four tokens on day 11: three days old, eight days old, ten days old, and
    ten days old but activated. *)
Definition day : Z := 86400 * 1000000.
Definition sweep_tokens : gmap Z ActivationToken :=
  {[1 := mkToken 1 alice "a" false (8 * day);
    2 := mkToken 2 bob "b" false (3 * day);
    3 := mkToken 3 alice "c" false (1 * day);
    4 := mkToken 4 bob "d" true (1 * day)]}.
Definition w_sweep : World :=
  mkWorld (mkDB ∅ ∅ ∅ sweep_tokens ∅) ∅ (11 * day) "https://news.example.org" [] false [] [] [].

Definition alice_news : Subscription := mkSubscription alice (mkCategory 3 "politics").
Definition bob_sport : Subscription := mkSubscription bob (mkCategory 5 "sport").
(** ** Further dispatch and observations *)

(** [post_save] of a User reaches its two receivers in the order they are
    connected: the backup receiver, then the profile receiver. *)
Definition send_user_saved (instance : User) (created : bool) : M unit :=
  handle_user_post_save instance created ;;
  create_author_profile instance created.

(** The user has an Author row. *)
Definition has_author (user : User) (d : DB) : Prop :=
  ∃ key author, authors d !! key = Some author ∧
                user_id (author_user author) = user_id user.

(** The welcome e-mails, with the activation link of each. *)
Definition welcome_emails (tr : list event) : list (User * string) :=
  omap (λ e, match e with WelcomeEmail u url => Some (u, url) | _ => None end) tr.

(** The cache keys of a new post and of a new comment. *)
Definition post_keys (instance : Post) : list string :=
  ["latest_news"; "news_list"; "post_" +:+ str (pk instance); "categories_list"]%string.

Definition comment_keys (instance : Comment) : list string :=
  [("post_" +:+ str (pk (comment_post instance)) +:+ "_comments")%string;
   ("post_" +:+ str (pk (comment_post instance)) +:+ "_comments_count")%string].

(** A computation leaves the tables and the pending callbacks as they were
    and sends no e-mail. *)
Definition leaves_store_and_mail (m : M unit) (w : World) : Prop :=
  db (m w).2 = db w ∧ run_on_commit (m w).2 = run_on_commit w ∧
  success_emails (trace (m w).2) = success_emails (trace w) ∧
  notifications (trace (m w).2) = notifications (trace w).

(** The sweep, when no collaborator fails. *)
Definition swept (w : World) : World :=
  let cutoff := now w - timedelta_days 7 in
  let count := Z.of_nat (size (expired_tokens cutoff (db w))) in
  if 0 <? count
  then emit (Log INFO (TokensCleaned count))
         (set_db (set_tokens (filter (λ kv, ¬ expired cutoff kv.2) (tokens (db w))) (db w)) w)
  else w.


(** * Proofs *)

(** ** Symbolic execution *)

(** Split a world into its fields, so that the fields a hypothesis fixes
    (the failure schedule, the transaction flag) compute. *)
Ltac world w :=
  destruct w as [[?g ?ug ?au ?tk ?ps] ?c ?n ?url ?us ?a ?q ?f ?tr];
  simpl in *; subst.

(** Run the monadic combinators of the goal. *)
Ltac run :=
  repeat (progress (
    unfold bind, ret, gets, modify_db, modify, when, call, logger, print, raise,
      try_except, emit, set_db, set_cache, set_faults, set_txn, set_uuids,
      set_groups, set_authors, set_tokens;
    cbn [db cache now SITE_URL uuids in_atomic_block run_on_commit faults trace
         groups user_groups authors tokens posts fst snd negb andb])).

Ltac trace_eq := rewrite <- ?app_assoc; reflexivity.

(** ** Subscriptions: cache invalidation (C7) *)

Lemma send_subscription_event_spec ev w :
  faults w = [] →
  ∃ w', send_subscription_event ev w = (Ok tt, w') ∧ faults w' = [] ∧
        cache_deletes (trace w') = cache_deletes (trace w) ++ subscription_deletes ev.
Proof.
  intros Hf. world w.
  destruct ev as [s [] | s]; eexists; (split; [reflexivity |]); split; try reflexivity;
    cbn -[str String.app]; unfold cache_deletes; rewrite ?omap_app; cbn -[str String.app];
    rewrite ?app_nil_r; trace_eq.
Qed.

(** C7.  With the cache answering, any sequence of subscription events
    deletes, for each creation and each deletion and in the order of the
    events, the key [user_<id>_subscriptions] of the subscriber and the key
    [category_<id>_subscribers_count] of the category, once each, and
    nothing else; the save of an existing subscription deletes nothing. *)
Theorem subscription_events_delete_both_keys (evs : list subscription_event) (w : World) :
  faults w = [] →
  (for_each evs send_subscription_event w).1 = Ok tt ∧
  cache_deletes (trace (for_each evs send_subscription_event w).2) =
    cache_deletes (trace w) ++ concat (subscription_deletes <$> evs).
Proof.
  revert w. induction evs as [|ev evs IH]; intros w Hf.
  - simpl. by rewrite app_nil_r.
  - destruct (send_subscription_event_spec ev w Hf) as (w' & Hrun & Hf' & Hdel).
    simpl. unfold bind. rewrite Hrun.
    destruct (IH w' Hf') as [Hok Hrest]. split; [exact Hok |].
    rewrite Hrest, Hdel. by rewrite <- app_assoc.
Qed.

Lemma subscription_events_delete_both_keys_witness :
  faults w_empty = [] ∧
  cache_deletes (trace (for_each [SubscriptionSaved alice_news true;
                                  SubscriptionDeleted bob_sport;
                                  SubscriptionDeleted alice_news]
                                 send_subscription_event w_empty).2) =
    ["user_1_subscriptions"; "category_3_subscribers_count";
     "user_2_subscriptions"; "category_5_subscribers_count";
     "user_1_subscriptions"; "category_3_subscribers_count"]%string.
Proof.
  split; [reflexivity |].
  rewrite (proj2 (subscription_events_delete_both_keys _ w_empty eq_refl)).
  vm_compute. reflexivity.
Defined.

(** ** The atomic block *)

Lemma atomic_commits {A} (body : M A) (w w1 : World) (a : A) :
  in_atomic_block w = false →
  body (set_txn true (run_on_commit w) w) = (Ok a, w1) →
  atomic body w = (commit ;; ret a) w1.
Proof. intros Ha Hb. unfold atomic. by rewrite Ha, Hb. Qed.

Lemma atomic_rolls_back {A} (body : M A) (w w1 : World) (e : exn) :
  in_atomic_block w = false →
  body (set_txn true (run_on_commit w) w) = (Raise e, w1) →
  atomic body w = (Raise e, set_txn false [] (set_db (db w) w1)).
Proof. intros Ha Hb. unfold atomic. by rewrite Ha, Hb. Qed.

(** A nested block that raises takes the callbacks it registered with it,
    and leaves those of the enclosing block. *)
Lemma atomic_savepoint_rolls_back {A} (body : M A) (w w1 : World) (e : exn) :
  in_atomic_block w = true →
  body w = (Raise e, w1) →
  atomic body w = (Raise e, set_txn true (run_on_commit w) (set_db (db w) w1)).
Proof. intros Ha Hb. unfold atomic. by rewrite Ha, Hb. Qed.

(** The creation of a post fails inside a nested block and the failure is
    handled in the enclosing block, which commits: the notification that the
    nested block had registered is not sent. *)
Example failed_savepoint_drops_its_notification :
  let w := set_txn false [] w_txn in
  let inner : M unit :=
    atomic (send_post_event (PostSaved budget true) ;;
            raise (CollaboratorError Persistence)) in
  let outer : M unit := atomic (try_except inner (λ _, ret tt)) in
  (outer w).1 = Ok tt ∧ notifications (trace (outer w).2) = [] ∧
  run_on_commit (outer w).2 = [].
Proof. vm_compute. auto. Qed.

(** A post created with its category inside [atomic]: the notification goes
    out once, after the block; when the block raises, it never does. *)
Example atomic_creation_notifies_after_the_block :
  let w := set_txn false [] w_txn in
  notifications (trace (atomic (send_post_event (PostSaved budget true)) w).2) =
    [SubscribersNotified budget] ∧
  notifications
    (trace (atomic (A := unit)
                   (send_post_event (PostSaved budget true) ;;
                    raise (CollaboratorError Persistence)) w).2) = [].
Proof. vm_compute. auto. Qed.

(** ** The deferred action: dispatch on the stored post (C5, C8) *)

(** C5.  When the post is still stored and no collaborator fails, the
    deferred action notifies for the row it fetches by the primary key of the
    instance it was given, whatever title and type that instance carries: a
    stored NEWS post goes to the subscribers' notification, a stored ARTICLE
    to the immediate article notification, and the two are different
    effects. *)
Theorem notification_dispatches_on_refetched_post (post row : Post) (w : World) :
  faults w = [] →
  posts (db w) !! pk post = Some row →
  (process_post_notifications post w).1 = Ok tt ∧
  notifications (trace (process_post_notifications post w).2) =
    notifications (trace w) ++
    match ptype row with
    | NEWS => [SubscribersNotified row]
    | ARTICLE => [ImmediateArticleNotification row]
    | OTHER _ => []
    end ∧
  SubscribersNotified row ≠ ImmediateArticleNotification row.
Proof.
  intros Hf Hrow. world w.
  unfold process_post_notifications, process_post_notifications_try, Post_objects_get.
  run. rewrite Hrow.
  destruct (ptype row);
    unfold send_notifications_to_subscribers,
      EmailService_send_immediate_article_notification; run;
    (split; [reflexivity |]); (split; [| discriminate]);
    unfold notifications; rewrite ?omap_app; simpl; rewrite ?app_nil_r; trace_eq.
Qed.

Lemma notification_dispatches_on_refetched_post_witness :
  (* the instance of the signal says ARTICLE, the stored row says NEWS *)
  let stale := mkPost 7 "Draft" ARTICLE [] 1 in
  faults w_txn = [] ∧ posts (db w_txn) !! pk stale = Some budget ∧
  notifications (trace (process_post_notifications stale w_txn).2) =
    [SubscribersNotified budget].
Proof.
  split; [reflexivity |]. split; [reflexivity |].
  exact (proj1 (proj2 (notification_dispatches_on_refetched_post
                         (mkPost 7 "Draft" ARTICLE [] 1) budget w_txn eq_refl eq_refl))).
Defined.

(** C8.  When the post is gone by the time the deferred action runs (and
    the lookup itself does not fail), the action logs its start and then the
    missing primary key at error level, and does nothing else: it returns
    normally, sends no notification and leaves the tables, the cache and the
    pending callbacks as they were. *)
Theorem missing_post_is_logged_and_skipped (post : Post) (w : World) :
  posts (db w) !! pk post = None →
  hd false (faults w) = false →
  let w' := (process_post_notifications post w).2 in
  (process_post_notifications post w).1 = Ok tt ∧
  trace w' = trace w ++ [Log INFO (NotifyStart (title post) (pk post));
                         Log ERROR (PostNotFound (pk post))] ∧
  notifications (trace w') = notifications (trace w) ∧
  db w' = db w ∧ cache w' = cache w ∧ run_on_commit w' = run_on_commit w.
Proof.
  intros Hrow Hf. world w.
  unfold process_post_notifications, process_post_notifications_try, Post_objects_get.
  destruct f as [|[] f]; try discriminate; run; rewrite Hrow; run;
    (repeat split; [trace_eq |]);
    unfold notifications; rewrite !omap_app; simpl; by rewrite !app_nil_r.
Qed.

Lemma missing_post_is_logged_and_skipped_witness :
  let gone := mkPost 99 "Withdrawn" NEWS [3] 1 in
  posts (db w_txn) !! pk gone = None ∧ hd false (faults w_txn) = false ∧
  trace (process_post_notifications gone w_txn).2 =
    [Log INFO (NotifyStart "Withdrawn" 99); Log ERROR (PostNotFound 99)].
Proof.
  split; [reflexivity |]. split; [reflexivity |].
  exact (proj1 (proj2 (missing_post_is_logged_and_skipped
                         (mkPost 99 "Withdrawn" NEWS [3] 1) w_txn eq_refl eq_refl))).
Defined.

(** ** Activation tokens (C1, C10) *)

(** What a save of a token does when no collaborator fails. *)
Lemma ActivationToken_save_run (instance : ActivationToken) (w : World) :
  faults w = [] →
  let user := token_user instance in
  let created := bool_decide (tokens (db w) !! token_pk instance = None) in
  let member := bool_decide ((user_id user, "authors"%string) ∈ user_groups (db w)) in
  let fires := activated instance && negb created in
  ∃ w', ActivationToken_save instance w = (Ok tt, w') ∧
        faults w' = [] ∧
        tokens (db w') = <[token_pk instance := instance]> (tokens (db w)) ∧
        success_emails (trace w') =
          success_emails (trace w) ++ (if fires then [user] else []) ∧
        grants (trace w') =
          grants (trace w) ++
          (if fires && negb member then [(user_id user, "authors"%string)] else []) ∧
        (fires = true → (user_id user, "authors"%string) ∈ user_groups (db w')).
Proof.
  intros Hf. world w.
  unfold ActivationToken_save, handle_activation_token_save,
    handle_activation_token_save_try. run.
  destruct (activated instance);
    destruct (bool_decide (tk !! token_pk instance = None)); run;
    try (eexists; repeat split; try reflexivity; try discriminate;
         cbn; by rewrite app_nil_r).
  unfold EmailService_send_activation_success_email, groups_filter_exists. run.
  destruct (bool_decide ((user_id (token_user instance), "authors"%string) ∈ ug)) eqn:Hm; run.
  - apply bool_decide_eq_true in Hm.
    eexists; (split; [reflexivity |]); run.
    unfold success_emails, grants; rewrite !omap_app; simpl; rewrite ?app_nil_r.
    repeat split; try done; trace_eq.
  - unfold Group_objects_get_or_create, groups_add. run.
    destruct (bool_decide ("authors"%string ∈ g)); run;
      (eexists; (split; [reflexivity |]); run);
      unfold success_emails, grants; rewrite !omap_app; simpl; rewrite ?app_nil_r;
      (repeat split; try done; try trace_eq; intros _; set_solver).
Qed.

(** What the receiver makes of a save, with no collaborator failing: it sees
    the new flag and [created] only, never the flag the row had before.  A
    save that updates an existing row and leaves [activated] true sends one
    activation-success e-mail, and grants the 'authors' group once if the
    user is not in it yet; a save that creates the row, or leaves
    [activated] false, sends and grants nothing.  On the flip from
    unactivated to activated this is one e-mail and one idempotent grant. *)
Theorem activation_effects_follow_the_guard (instance : ActivationToken) (w : World) :
  faults w = [] →
  let user := token_user instance in
  let created := bool_decide (tokens (db w) !! token_pk instance = None) in
  let member := bool_decide ((user_id user, "authors"%string) ∈ user_groups (db w)) in
  let fires := activated instance && negb created in
  let w' := (ActivationToken_save instance w).2 in
  (ActivationToken_save instance w).1 = Ok tt ∧
  success_emails (trace w') =
    success_emails (trace w) ++ (if fires then [user] else []) ∧
  grants (trace w') =
    grants (trace w) ++
    (if fires && negb member then [(user_id user, "authors"%string)] else []) ∧
  (fires = true → (user_id user, "authors"%string) ∈ user_groups (db w')).
Proof.
  intros Hf.
  destruct (ActivationToken_save_run instance w Hf) as (w1 & Hrun & _ & _ & He & Hg & Hm).
  cbn zeta. rewrite Hrun. simpl. auto.
Qed.

(** The flip of Bob's pending token: one e-mail and one grant. *)
Lemma activation_effects_follow_the_guard_witness :
  faults w_pending = [] ∧
  let w' := (ActivationToken_save (set_activated true bob_token) w_pending).2 in
  success_emails (trace w') = [bob] ∧ grants (trace w') = [(2, "authors"%string)].
Proof.
  split; [reflexivity |].
  pose proof (activation_effects_follow_the_guard
                (set_activated true bob_token) w_pending eq_refl) as (_ & He & Hg & _).
  split; [exact He | exact Hg].
Defined.

(** C1.  The claim (and the comment on the receiver's guard, "only on the
    activation of an existing token") has the success e-mail sent on the flip
    from unactivated to activated only, and a save of a token that is
    activated already send nothing more.  The code does not do this: Alice's
    token is stored as activated and she is in the authors group; saving it
    again, with no collaborator failing, sends her another
    activation-success e-mail. *)
Lemma resaving_an_activated_token_sends_again :
  let w' := (ActivationToken_save alice_token w_activated).2 in
  faults w_activated = [] ∧
  tokens (db w_activated) !! token_pk alice_token = Some alice_token ∧
  activated alice_token = true ∧
  success_emails (trace w') = success_emails (trace w_activated) ++ [alice] ∧
  success_emails (trace w') ≠ success_emails (trace w_activated).
Proof. vm_compute. repeat split; discriminate. Qed.

(** The same inside the file: the social sign-up receiver saves the token of
    a user who is activated already, and the activation receiver sends the
    e-mail once more. *)
Example social_signup_of_an_activated_user_sends_again :
  let w' := (handle_social_signup (mkSocialLogin alice "github") w_activated).2 in
  tokens_of alice (db w_activated) = [alice_token] ∧
  success_emails (trace w') = success_emails (trace w_activated) ++ [alice].
Proof. vm_compute. auto. Qed.

Lemma fresh_token_pk (tk : gmap Z ActivationToken) : tk !! fresh (dom tk) = None.
Proof. apply not_elem_of_dom, is_fresh. Qed.

(** The single token of a user is a stored row, under the key it carries. *)
Lemma tokens_of_singleton user d instance :
  tokens_of user d = [instance] →
  ∃ row, tokens d !! token_pk instance = Some row ∧ instance = at_pk (token_pk instance) row ∧
         user_id (token_user row) = user_id user.
Proof.
  unfold tokens_of. intros Hof.
  destruct (map_to_list _) as [|[k row] [|? ?]] eqn:Hl; simplify_eq/=.
  assert ((k, row) ∈ map_to_list
            (filter (λ kv : Z * ActivationToken, user_id (token_user kv.2) = user_id user)
                    (tokens d))) as Hin by (rewrite Hl; set_solver).
  apply elem_of_map_to_list, map_lookup_filter_Some in Hin as [Hk Hu].
  exists row. auto.
Qed.

(** C10.  With no collaborator failing and at most one token stored for the
    user, the social sign-up receiver leaves the user with an activated
    token, and its save of that token has the activation receiver send the
    activation-success e-mail to the token's user, once, and leave the user
    in the 'authors' group: no activation link is involved. *)
Theorem social_signup_activates_at_once (sociallogin : SocialLogin) (w : World) :
  faults w = [] →
  (length (tokens_of (social_user sociallogin) (db w)) ≤ 1)%nat →
  let user := social_user sociallogin in
  let w' := (handle_social_signup sociallogin w).2 in
  (handle_social_signup sociallogin w).1 = Ok tt ∧
  (user_id user, "authors"%string) ∈ user_groups (db w') ∧
  ∃ key row, tokens (db w') !! key = Some row ∧
             user_id (token_user row) = user_id user ∧ activated row = true ∧
             success_emails (trace w') = success_emails (trace w) ++ [token_user row].
Proof.
  intros Hf Hone. cbn zeta. unfold handle_social_signup.
  destruct sociallogin as [user prov]. cbn [social_user provider] in *.
  world w. unfold ActivationToken_objects_get_or_create. run.
  destruct (tokens_of user _) as [|instance [|? ?]] eqn:Hof; [| | simpl in Hone; lia].
  - (* no token yet: one is created, then activated and saved again *)
    unfold ActivationToken_objects_create. run.
    match goal with |- context [ActivationToken_save ?i ?W] =>
      destruct (ActivationToken_save_run i W eq_refl) as (w1 & Hrun & Hf1 & Htk1 & He1 & _ & _);
      rewrite Hrun end.
    cbn [tokens db token_pk activated andb trace] in Htk1, He1.
    rewrite app_nil_r in He1. run.
    match goal with |- context [ActivationToken_save ?i w1] =>
      destruct (ActivationToken_save_run i w1 Hf1) as (w2 & Hrun2 & _ & Htk2 & He2 & _ & Hm2);
      rewrite Hrun2 end.
    cbn [token_pk set_activated activated token_user] in Htk2, He2, Hm2.
    rewrite Htk1, lookup_insert_eq in He2, Hm2.
    rewrite bool_decide_eq_false_2 in He2, Hm2 by done.
    cbn [fst snd]. split; [done |]. split; [by apply Hm2 |].
    eexists _, _. split; [rewrite Htk2; apply lookup_insert_eq |].
    repeat split. rewrite He2, He1. unfold success_emails. rewrite !omap_app. simpl.
    by rewrite app_nil_r.
  - (* the stored token is activated and saved *)
    apply tokens_of_singleton in Hof as (row & Hrow & -> & Hu).
    cbn [tokens] in Hrow. run.
    match goal with |- context [ActivationToken_save ?i ?W] =>
      destruct (ActivationToken_save_run i W eq_refl) as (w2 & Hrun2 & _ & Htk2 & He2 & _ & Hm2);
      rewrite Hrun2 end.
    cbn [token_pk set_activated at_pk activated token_user tokens db trace] in Htk2, He2, Hm2.
    rewrite Hrow in He2, Hm2.
    rewrite bool_decide_eq_false_2 in He2, Hm2 by done.
    cbn [fst snd]. split; [done |]. split; [rewrite <- Hu; by apply Hm2 |].
    eexists _, _. split; [rewrite Htk2; apply lookup_insert_eq |].
    repeat split; [done |]. rewrite He2. unfold success_emails. rewrite !omap_app. simpl.
    by rewrite app_nil_r.
Qed.

Lemma social_signup_activates_at_once_witness :
  let w' := (handle_social_signup (mkSocialLogin bob "github") w_pending).2 in
  faults w_pending = [] ∧
  (length (tokens_of bob (db w_pending)) ≤ 1)%nat ∧
  (handle_social_signup (mkSocialLogin bob "github") w_pending).1 = Ok tt ∧
  (2, "authors"%string) ∈ user_groups (db w').
Proof.
  assert (length (tokens_of bob (db w_pending)) ≤ 1)%nat as Hone by (vm_compute; lia).
  pose proof (social_signup_activates_at_once (mkSocialLogin bob "github") w_pending
                eq_refl Hone) as (Hok & Hm & _).
  split; [reflexivity |]. split; [exact Hone |]. split; [exact Hok | exact Hm].
Defined.

(** ** Deferred notifications and the transaction (C2, C4) *)

Lemma started_app tr1 tr2 : started (tr1 ++ tr2) = started tr1 ++ started tr2.
Proof. apply omap_app. Qed.

Lemma notifications_app tr1 tr2 :
  notifications (tr1 ++ tr2) = notifications tr1 ++ notifications tr2.
Proof. apply omap_app. Qed.

(** One post event inside an open transaction, with no collaborator failing:
    the receivers return, append the callback when the guard holds, and run
    nothing of it. *)
Lemma send_post_event_run (ev : post_event) (w : World) :
  in_atomic_block w = true → faults w = [] →
  ∃ w', send_post_event ev w = (Ok tt, w') ∧
        in_atomic_block w' = true ∧ faults w' = [] ∧ db w' = db w ∧
        run_on_commit w' =
          run_on_commit w ++ (if guard ev (db w) then [NotifyPost (event_post ev)] else []) ∧
        started (trace w') = started (trace w) ∧
        notifications (trace w') = notifications (trace w).
Proof.
  intros Ha Hf. world w. destruct ev as [instance [] | instance action]; simpl.
  - unfold handle_post_save, handle_new_article_for_weekly_digest,
      categories_exists, transaction_on_commit, cache_delete. run.
    destruct (ps !! pk instance) as [row|]; [destruct (bool_decide (categories row = [])) |];
      simpl; run; destruct (bool_decide (ptype instance = ARTICLE)); run;
      (eexists; (split; [reflexivity |]); run;
       rewrite ?app_nil_r, !started_app, !notifications_app; simpl;
       rewrite ?app_nil_r; done).
  - eexists; (split; [reflexivity |]); run. by rewrite !app_nil_r.
  - unfold handle_post_categories_changed, transaction_on_commit. run.
    destruct (bool_decide (action = "post_add"%string)); run;
      (eexists; (split; [reflexivity |]); run;
       rewrite ?app_nil_r, !started_app, !notifications_app; simpl;
       rewrite ?app_nil_r; done).
Qed.

(** The deferred action returns normally whatever fails, and its run shows
    in the trace as one start for the post. *)
Lemma process_post_notifications_started (post : Post) (w : World) :
  (process_post_notifications post w).1 = Ok tt ∧
  started (trace (process_post_notifications post w).2) = started (trace w) ++ [pk post] ∧
  in_atomic_block (process_post_notifications post w).2 = in_atomic_block w ∧
  run_on_commit (process_post_notifications post w).2 = run_on_commit w.
Proof.
  world w.
  unfold process_post_notifications, process_post_notifications_try, Post_objects_get,
    process_post_notifications_except.
  destruct f as [|[] f]; run;
    try (destruct (ps !! pk post) as [row|]; [destruct (ptype row) |]);
    unfold send_notifications_to_subscribers,
      EmailService_send_immediate_article_notification; run;
    try (destruct f as [|[] f]; run);
    (split; [reflexivity |]); (split; [| done]);
    rewrite !started_app; simpl; rewrite ?app_nil_r; trace_eq.
Qed.

Lemma run_hooks_started (fs : list deferred) (w : World) :
  (run_hooks fs w).1 = Ok tt ∧
  started (trace (run_hooks fs w).2) = started (trace w) ++ (deferred_pk <$> fs) ∧
  in_atomic_block (run_hooks fs w).2 = in_atomic_block w ∧
  run_on_commit (run_hooks fs w).2 = run_on_commit w.
Proof.
  revert w. induction fs as [|[instance] fs IH]; intros w; simpl.
  - by rewrite app_nil_r.
  - unfold bind.
    destruct (process_post_notifications_started instance w) as (Hok & Hst & Ha & Hq).
    destruct (process_post_notifications instance w) as [[[]|e] w1]; simpl in *; [| done].
    destruct (IH w1) as (Hok1 & Hst1 & Ha1 & Hq1). split; [done |].
    rewrite Hst1, Hst, Ha1, Hq1. by rewrite <- app_assoc.
Qed.

(** C2.  A post creation or a category addition whose guard holds, received
    inside an open transaction with no collaborator failing, appends the
    notification callback to the callbacks of that transaction and runs
    nothing of it.  If the transaction commits, the callback runs after the
    commit, once (after the callbacks registered before it, each once); if
    the transaction is rolled back, it never runs and is dropped. *)
Theorem notification_deferred_until_commit (ev : post_event) (w : World) (saved : DB) :
  in_atomic_block w = true →
  faults w = [] →
  guard ev (db w) = true →
  let w1 := (send_post_event ev w).2 in
  (send_post_event ev w).1 = Ok tt ∧
  run_on_commit w1 = run_on_commit w ++ [NotifyPost (event_post ev)] ∧
  started (trace w1) = started (trace w) ∧
  notifications (trace w1) = notifications (trace w) ∧
  (commit w1).1 = Ok tt ∧
  in_atomic_block (commit w1).2 = false ∧
  run_on_commit (commit w1).2 = [] ∧
  started (trace (commit w1).2) =
    started (trace w) ++ (deferred_pk <$> run_on_commit w) ++ [pk (event_post ev)] ∧
  started (trace (rollback saved w1).2) = started (trace w) ∧
  notifications (trace (rollback saved w1).2) = notifications (trace w) ∧
  run_on_commit (rollback saved w1).2 = [].
Proof.
  intros Ha Hf Hg.
  destruct (send_post_event_run ev w Ha Hf) as (w' & Hrun & Ha' & Hf' & Hdb & Hq & Hst & Hnt).
  cbn zeta. rewrite Hrun. cbn [fst snd]. rewrite Hg in Hq.
  unfold commit.
  destruct (run_hooks_started (run_on_commit w') (set_txn false [] w'))
    as (Hok & Hrun' & Hblock & Hleft).
  repeat split; try done.
  rewrite Hrun'. simpl. by rewrite Hq, Hst, fmap_app.
Qed.

Lemma notification_deferred_until_commit_witness :
  let ev := PostSaved budget true in
  let w1 := (send_post_event ev w_txn).2 in
  in_atomic_block w_txn = true ∧ faults w_txn = [] ∧ guard ev (db w_txn) = true ∧
  run_on_commit w1 = [NotifyPost budget] ∧
  started (trace w1) = [] ∧
  started (trace (commit w1).2) = [7] ∧
  started (trace (rollback (db w_txn) w1).2) = [].
Proof.
  pose proof (notification_deferred_until_commit (PostSaved budget true) w_txn (db w_txn)
                eq_refl eq_refl eq_refl) as (_ & Hq & Hs & _ & _ & _ & _ & Hc & Hr & _).
  split; [reflexivity |]. split; [reflexivity |]. split; [reflexivity |].
  split; [exact Hq |]. split; [exact Hs |]. split; [exact Hc | exact Hr].
Defined.

(** C4, as the claim has it, fails: the budget post is created with a
    category already set and then has a category added, both inside one
    transaction; two callbacks for the post are outstanding, and the commit
    runs the notification for it twice. *)
Lemma creation_then_category_addition_schedules_twice :
  let events := [PostSaved budget true; CategoriesChanged budget "post_add"] in
  let w1 := (for_each events send_post_event w_txn).2 in
  in_atomic_block w_txn = true ∧ run_on_commit w_txn = [] ∧
  run_on_commit w1 = [NotifyPost budget; NotifyPost budget] ∧
  notifications (trace (commit w1).2) =
    [SubscribersNotified budget; SubscribersNotified budget].
Proof. vm_compute. auto. Qed.

(** C4, as the code has it.  Inside one transaction, with no collaborator
    failing, every event whose guard holds appends a callback of its own;
    nothing is deduplicated.  After a sequence of events the outstanding
    callbacks are the earlier ones followed by one per guard-passing event,
    in the order of the events, also when several are for the same post. *)
Theorem one_callback_per_guarded_event (evs : list post_event) (w : World) :
  in_atomic_block w = true →
  faults w = [] →
  let w' := (for_each evs send_post_event w).2 in
  (for_each evs send_post_event w).1 = Ok tt ∧
  run_on_commit w' =
    run_on_commit w ++
    (NotifyPost ∘ event_post <$> filter (λ ev, guard ev (db w) = true) evs).
Proof.
  revert w. induction evs as [|ev evs IH]; intros w Ha Hf; cbn zeta.
  - simpl. by rewrite app_nil_r.
  - destruct (send_post_event_run ev w Ha Hf) as (w1 & Hrun & Ha1 & Hf1 & Hdb & Hq & _).
    simpl. unfold bind. rewrite Hrun.
    destruct (IH w1 Ha1 Hf1) as [Hok Hrest]. split; [exact Hok |].
    rewrite Hrest, Hq, Hdb, filter_cons.
    destruct (decide (guard ev (db w) = true)) as [Hg | Hg].
    + rewrite Hg. by rewrite <- app_assoc.
    + apply not_true_is_false in Hg. rewrite Hg. by rewrite app_nil_r.
Qed.

Lemma one_callback_per_guarded_event_witness :
  let events := [CategoriesChanged budget "post_add"; CategoriesChanged essay "pre_add";
                 CategoriesChanged budget "post_add"] in
  in_atomic_block w_txn = true ∧ faults w_txn = [] ∧
  run_on_commit (for_each events send_post_event w_txn).2 =
    [NotifyPost budget; NotifyPost budget].
Proof.
  split; [reflexivity |]. split; [reflexivity |].
  exact (proj2 (one_callback_per_guarded_event
                  [CategoriesChanged budget "post_add"; CategoriesChanged essay "pre_add";
                   CategoriesChanged budget "post_add"] w_txn eq_refl eq_refl)).
Defined.

(** ** Exceptions: what is caught and what is not (C3) *)

(** C3, as the claim has it, fails: the social sign-up receiver has no
    [try]; when its first query fails, the exception leaves the receiver and
    nothing is logged at error level. *)
Lemma social_signup_failure_propagates :
  let w := set_faults [true] w_empty in
  (handle_social_signup (mkSocialLogin alice "github") w).1 =
    Raise (CollaboratorError Persistence) ∧
  errors (trace (handle_social_signup (mkSocialLogin alice "github") w).2) = [].
Proof. vm_compute. auto. Qed.

(** C3, as the code has it.  The receivers [handle_user_signed_up],
    [handle_activation_token_save] and [cleanup_user_group], the deferred
    action [process_post_notifications] and [cleanup_expired_tokens] wrap
    their work in [try]/[except Exception]: whatever is raised inside is
    logged at error level and goes no further, so each of them returns
    normally in every world.  The sign-up receiver logs the user's e-mail
    with the exception, the deferred action logs the post's primary key when
    the post is missing and the exception alone otherwise, the other three
    log the exception alone. *)
Theorem guarded_receivers_catch_and_log :
  (∀ user,
     swallows (handle_user_signed_up user) tt
       (emit (Log INFO (SignupStarted (email user))))
       (handle_user_signed_up_try user)
       (SignupFailed (email user))) ∧
  (∀ instance created,
     if activated instance && negb created
     then swallows (handle_activation_token_save instance created) tt
            (emit (Log INFO (AccountActivated (username (token_user instance)))))
            (handle_activation_token_save_try instance)
            ActivationFailed
     else ∀ w, handle_activation_token_save instance created w = (Ok tt, w)) ∧
  (∀ instance,
     swallows (cleanup_user_group instance) tt id
       (cleanup_user_group_try instance) GroupCleanupFailed) ∧
  (∀ post,
     swallows (process_post_notifications post) tt
       (emit (Log INFO (NotifyStart (title post) (pk post))))
       (process_post_notifications_try post)
       (process_post_notifications_except post)) ∧
  swallows cleanup_expired_tokens PyNone id
    cleanup_expired_tokens_try TokenCleanupFailed.
Proof.
  repeat split.
  - intros user w. unfold handle_user_signed_up, bind, try_except, logger, modify.
    by destruct (handle_user_signed_up_try user _) as [[[]|e] w1].
  - intros instance created. unfold handle_activation_token_save.
    destruct (activated instance && negb created); [| done].
    intros w. unfold when, bind, try_except, logger, modify.
    by destruct (handle_activation_token_save_try instance _) as [[[]|e] w1].
  - intros instance w. unfold cleanup_user_group, try_except, logger, modify, id.
    by destruct (cleanup_user_group_try instance w) as [[[]|e] w1].
  - intros post w. unfold process_post_notifications, bind, try_except, logger, modify.
    by destruct (process_post_notifications_try post _) as [[[]|e] w1].
  - intros w. unfold cleanup_expired_tokens, bind, try_except, logger, modify, ret, id.
    by destruct (cleanup_expired_tokens_try w) as [[[]|e] w1].
Qed.

(** ** The retention sweep (C6) *)

(** C6, as the claim has it, fails: the sweep deletes the two expired tokens
    of the four and returns [None], not the count. *)
Lemma sweep_does_not_return_the_count :
  let w' := (cleanup_expired_tokens w_sweep).2 in
  faults w_sweep = [] ∧
  size (tokens (db w_sweep)) = 4%nat ∧
  dom (tokens (db w')) = {[1; 4]} ∧
  (cleanup_expired_tokens w_sweep).1 = Ok PyNone ∧
  (cleanup_expired_tokens w_sweep).1 ≠ Ok (PyInt 2).
Proof. vm_compute. repeat split; discriminate. Qed.

Lemma no_expired_tokens cutoff (d : DB) key t :
  size (expired_tokens cutoff d) = 0%nat →
  tokens d !! key = Some t → ¬ expired cutoff t.
Proof.
  intros Hsize Hkey Hexp. apply map_size_empty_iff in Hsize.
  assert (expired_tokens cutoff d !! key = Some t) as Hin
    by (apply map_lookup_filter_Some; done).
  rewrite Hsize in Hin. by rewrite lookup_empty in Hin.
Qed.

(** C6, as the code has it.  The sweep returns [None] and never raises; an
    exception inside it is logged.  When no collaborator fails, the tokens
    left are exactly those that are activated or were created no more than 7
    days ago, i.e. exactly the unactivated tokens created more than 7 days
    ago are deleted, and their count is logged when it is positive. *)
Theorem retention_sweep_deletes_expired_and_returns_none (w : World) :
  let cutoff := now w - timedelta_days 7 in
  let w' := (cleanup_expired_tokens w).2 in
  let count := Z.of_nat (size (expired_tokens cutoff (db w))) in
  (cleanup_expired_tokens w).1 = Ok PyNone ∧
  swallows cleanup_expired_tokens PyNone id cleanup_expired_tokens_try TokenCleanupFailed ∧
  (faults w = [] →
   (∀ key t, tokens (db w') !! key = Some t ↔
             tokens (db w) !! key = Some t ∧
             ¬ (activated t = false ∧ created_at t < cutoff)) ∧
   trace w' = trace w ++ (if 0 <? count then [Log INFO (TokensCleaned count)] else [])).
Proof.
  cbn zeta.
  assert (swallows cleanup_expired_tokens PyNone id cleanup_expired_tokens_try
            TokenCleanupFailed) as Hsw.
  { intros w0. unfold cleanup_expired_tokens, bind, try_except, logger, modify, ret, id.
    by destruct (cleanup_expired_tokens_try w0) as [[[]|e] w1]. }
  split; [| split; [exact Hsw |]].
  - specialize (Hsw w). unfold id in Hsw.
    destruct (cleanup_expired_tokens_try w) as [[[]|e] w1]; by rewrite Hsw.
  - intros Hf. world w.
    unfold cleanup_expired_tokens, cleanup_expired_tokens_try, QuerySet_count,
      QuerySet_delete. run.
    match goal with |- context [0 <? ?c] => destruct (0 <? c) eqn:Hc end; run.
    + split; [| trace_eq]. intros key t.
      rewrite map_lookup_filter_Some. reflexivity.
    + split; [| by rewrite app_nil_r]. intros key t. split; [| tauto].
      intros Hkey. split; [done |].
      apply (no_expired_tokens (n - timedelta_days 7) (mkDB g ug au tk ps) key t);
        [| exact Hkey].
      apply Z.ltb_ge in Hc. lia.
Qed.

Lemma retention_sweep_deletes_expired_and_returns_none_witness :
  faults w_sweep = [] ∧
  trace (cleanup_expired_tokens w_sweep).2 = [Log INFO (TokensCleaned 2)].
Proof.
  split; [reflexivity |].
  destruct (retention_sweep_deletes_expired_and_returns_none w_sweep) as (_ & _ & Hrun).
  destruct (Hrun eq_refl) as [_ Htrace]. rewrite Htrace. vm_compute. reflexivity.
Defined.

(** ** One Author per user (C9) *)

Section Preservation.
Context (J : gmap Z Author → Prop).

Lemma preserves_ret {A} (a : A) : preserves J (ret a).
Proof. intros w H. exact H. Qed.

Lemma preserves_raise {A} e : preserves J (@raise A e).
Proof. intros w H. exact H. Qed.

Lemma preserves_bind {A B} (m : M A) (k : A → M B) :
  preserves J m → (∀ a, preserves J (k a)) → preserves J (bind m k).
Proof.
  intros Hm Hk w H. unfold bind. specialize (Hm w H).
  destruct (m w) as [[a|e] w']; simpl in *; [by apply Hk | done].
Qed.

Lemma preserves_try {A} (body : M A) h :
  preserves J body → (∀ e, preserves J (h e)) → preserves J (try_except body h).
Proof.
  intros Hm Hk w H. unfold try_except. specialize (Hm w H).
  destruct (body w) as [[a|e] w']; simpl in *; [done | by apply Hk].
Qed.

Lemma preserves_when b m : preserves J m → preserves J (when b m).
Proof. destruct b; [done | intros _; apply preserves_ret]. Qed.

Lemma preserves_gets {A} (f : World → A) : preserves J (gets f).
Proof. intros w H. exact H. Qed.

Lemma preserves_modify f :
  (∀ w, authors (db (f w)) = authors (db w)) → preserves J (modify f).
Proof. intros Hf w H. simpl. by rewrite Hf. Qed.

Lemma preserves_modify_db f :
  (∀ d, authors (f d) = authors d) → preserves J (modify_db f).
Proof. intros Hf w H. simpl. by rewrite Hf. Qed.

Lemma preserves_call s : preserves J (call s).
Proof. intros w H. unfold call. by destruct (faults w) as [|[] ?]. Qed.

Lemma preserves_for_each {A} (l : list A) body :
  (∀ x, preserves J (body x)) → preserves J (for_each l body).
Proof.
  intros Hb. induction l as [|x l IH]; simpl; [apply preserves_ret |].
  apply preserves_bind; auto.
Qed.
End Preservation.

Create HintDb frame.
#[local] Hint Resolve preserves_ret preserves_raise preserves_gets preserves_call
  preserves_when preserves_try preserves_for_each : frame.
#[local] Hint Extern 2 (preserves _ (bind _ _)) => apply preserves_bind; [| intros] : frame.
#[local] Hint Extern 2 (preserves _ (modify _)) => apply preserves_modify; intros; reflexivity : frame.
#[local] Hint Extern 2 (preserves _ (modify_db _)) => apply preserves_modify_db; intros; reflexivity : frame.
#[local] Hint Extern 3 (preserves _ (let '(_, _) := ?r in _)) => destruct r : frame.
#[local] Hint Extern 3 (preserves _ (match ?r with _ => _ end)) => destruct r : frame.
#[local] Hint Extern 1 (preserves _ (logger _ _)) => unfold logger : frame.

Lemma preserves_logger J lvl m : preserves J (logger lvl m).
Proof. auto with frame. Qed.

Lemma preserves_groups_add J u g : preserves J (groups_add u g).
Proof. unfold groups_add. auto 10 with frame. Qed.

Lemma preserves_Group_get_or_create J name : preserves J (Group_objects_get_or_create name).
Proof. unfold Group_objects_get_or_create. auto 10 with frame. Qed.

Lemma preserves_groups_filter_exists J u g : preserves J (groups_filter_exists u g).
Proof. unfold groups_filter_exists. auto 10 with frame. Qed.

Lemma preserves_email_success J u : preserves J (EmailService_send_activation_success_email u).
Proof. unfold EmailService_send_activation_success_email. auto 10 with frame. Qed.

Lemma preserves_email_welcome J u url : preserves J (EmailService_send_welcome_email u url).
Proof. unfold EmailService_send_welcome_email. auto 10 with frame. Qed.

#[local] Hint Resolve preserves_logger preserves_groups_add preserves_Group_get_or_create
  preserves_groups_filter_exists preserves_email_success preserves_email_welcome : frame.

Lemma preserves_handle_activation_token_save J i c :
  preserves J (handle_activation_token_save i c).
Proof.
  unfold handle_activation_token_save, handle_activation_token_save_try.
  auto 20 with frame.
Qed.
#[local] Hint Resolve preserves_handle_activation_token_save : frame.

Lemma preserves_ActivationToken_save J i : preserves J (ActivationToken_save i).
Proof. unfold ActivationToken_save. auto 20 with frame. Qed.
#[local] Hint Resolve preserves_ActivationToken_save : frame.

Lemma preserves_create_token J u : preserves J (ActivationToken_create_token u).
Proof. unfold ActivationToken_create_token, ActivationToken_objects_create. auto 20 with frame. Qed.
#[local] Hint Resolve preserves_create_token : frame.

Lemma authors_of_nil u d k a :
  authors_of u d = [] → authors d !! k = Some a → user_id (author_user a) ≠ user_id u.
Proof.
  unfold authors_of. intros Hnil Hk Hu.
  apply map_to_list_empty_iff in Hnil.
  assert (filter (λ kv : Z * Author, user_id (author_user kv.2) = user_id u) (authors d) !! k = Some a) as H.
  { apply map_lookup_filter_Some. done. }
  rewrite Hnil in H. by rewrite lookup_empty in H.
Qed.

Lemma unique_users_insert_fresh au u :
  unique_users au →
  (∀ k a, au !! k = Some a → user_id (author_user a) ≠ user_id u) →
  unique_users (<[fresh (dom au) := mkAuthor u]> au).
Proof.
  intros Hu Hnone k1 k2 a1 a2 H1 H2 Heq.
  assert (au !! fresh (dom au) = None) as Hfresh by (apply not_elem_of_dom, is_fresh).
  rewrite lookup_insert in H1, H2.
  repeat case_decide; simplify_eq; simpl in *; try done.
  - exfalso. eapply Hnone; eauto.
  - exfalso. eapply Hnone; eauto.
  - eauto.
Qed.

(** Creating an Author for a user without one keeps the invariant. *)
Lemma Author_objects_create_unique u w :
  authors_of u (db w) = [] → unique_users (authors (db w)) →
  unique_users (authors (db (Author_objects_create u w).2)).
Proof.
  intros Hnil Hu. unfold Author_objects_create, bind, call, gets, modify_db, modify, ret.
  destruct (faults w) as [|[] ?]; simpl; try done;
    apply unique_users_insert_fresh; eauto using authors_of_nil.
Qed.

Lemma call_db s w : db (call s w).2 = db w.
Proof. unfold call. by destruct (faults w) as [|[] ?]. Qed.

Lemma preserves_Author_get_or_create u :
  preserves unique_users (Author_objects_get_or_create u).
Proof.
  intros w Hu. unfold Author_objects_get_or_create, bind at 1.
  pose proof (call_db Persistence w) as Hdb.
  destruct (call Persistence w) as [[[]|e] w1]; simpl in *; [| by rewrite Hdb].
  unfold bind at 1, gets at 1. 
  destruct (authors_of u (db w1)) as [|[k a] [|? ?]] eqn:Hof; simpl.
  - unfold bind. pose proof (Author_objects_create_unique u w1 Hof) as Hc.
    rewrite Hdb in Hc. specialize (Hc Hu).
    destruct (Author_objects_create u w1) as [[?|?] ?]; done.
  - by rewrite Hdb.
  - by rewrite Hdb.
Qed.

Lemma preserves_create_author_profile u c :
  preserves unique_users (create_author_profile u c).
Proof.
  intros w Hu. unfold create_author_profile. destruct c; [| done].
  unfold hasattr_author, bind at 1 2.
  pose proof (call_db Persistence w) as Hdb.
  destruct (call Persistence w) as [[[]|e] w1]; simpl in *; [| by rewrite Hdb].
  unfold gets, ret. 
  destruct (bool_decide (authors_of u (db w1) = [])) eqn:Hof; simpl.
  - apply bool_decide_eq_true in Hof.
    pose proof (Author_objects_create_unique u w1 Hof) as Hc.
    rewrite Hdb in Hc. specialize (Hc Hu). unfold bind.
    destruct (Author_objects_create u w1) as [[?|?] ?]; done.
  - by rewrite Hdb.
Qed.

#[local] Hint Resolve preserves_Author_get_or_create preserves_create_author_profile : frame.

Lemma preserves_handle_user_signed_up u : preserves unique_users (handle_user_signed_up u).
Proof.
  unfold handle_user_signed_up, handle_user_signed_up_try. auto 30 with frame.
Qed.

Lemma preserves_handle_user_post_save u c : preserves unique_users (handle_user_post_save u c).
Proof. unfold handle_user_post_save. auto 30 with frame. Qed.

Lemma preserves_provision p : preserves unique_users (provision p).
Proof.
  destruct p; simpl;
    auto using preserves_handle_user_signed_up, preserves_handle_user_post_save,
      preserves_create_author_profile.
Qed.

Lemma unique_users_of_count d : one_author_per_user d → unique_users (authors d).
Proof.
  intros Hone k1 k2 a1 a2 H1 H2 Heq.
  specialize (Hone (author_user a1)). unfold authors_of in Hone.
  set (rows := filter (λ kv : Z * Author,
                 user_id (author_user kv.2) = user_id (author_user a1)) (authors d)) in *.
  assert ((k1, a1) ∈ map_to_list rows) as Hin1
    by (apply elem_of_map_to_list, map_lookup_filter_Some; done).
  assert ((k2, a2) ∈ map_to_list rows) as Hin2
    by (apply elem_of_map_to_list, map_lookup_filter_Some; done).
  destruct (map_to_list rows) as [|x [|y l]]; simpl in Hone; [| | lia].
  - by apply elem_of_nil in Hin1.
  - apply list_elem_of_singleton in Hin1, Hin2. congruence.
Qed.

Lemma count_of_unique_users d : unique_users (authors d) → one_author_per_user d.
Proof.
  intros Hu user. unfold authors_of.
  set (rows := filter (λ kv : Z * Author,
                 user_id (author_user kv.2) = user_id user) (authors d)).
  pose proof (NoDup_fst_map_to_list rows) as Hnd.
  destruct (map_to_list rows) as [|[k1 a1] [|[k2 a2] l]] eqn:Hl; simpl; [lia | lia |].
  exfalso.
  assert (rows !! k1 = Some a1) as H1 by (apply elem_of_map_to_list; rewrite Hl; set_solver).
  assert (rows !! k2 = Some a2) as H2 by (apply elem_of_map_to_list; rewrite Hl; set_solver).
  apply map_lookup_filter_Some in H1 as [H1 Hu1], H2 as [H2 Hu2]. simpl in *.
  assert (k1 = k2) as -> by (eapply Hu; eauto; congruence).
  simpl in Hnd. apply NoDup_cons_1_1 in Hnd. set_solver.
Qed.

(** C9.  If no user has more than one Author row, then after any sequence
    of calls of the three provisioning receivers (the sign-up receiver, the
    backup receiver and the profile receiver), for any users and flags and
    whatever fails in between, still no user has more than one Author row. *)
Theorem one_author_per_user_is_kept (ps : list provisioning) (w : World) :
  one_author_per_user (db w) →
  one_author_per_user (db (provision_all ps w)).
Proof.
  intros Hone. apply count_of_unique_users.
  apply unique_users_of_count in Hone.
  revert w Hone. induction ps as [|p ps IH]; intros w Hone; simpl; [done |].
  apply IH. by apply preserves_provision.
Qed.

Lemma one_author_per_user_is_kept_witness :
  one_author_per_user (db w_empty) ∧
  one_author_per_user
    (db (provision_all [ViaBackup alice true; ViaProfile alice true; ViaSignUp alice;
                        ViaProfile bob true; ViaSignUp bob] w_empty)).
Proof.
  assert (one_author_per_user (db w_empty)) as Hone by (intros user; vm_compute; lia).
  split; [exact Hone |].
  exact (one_author_per_user_is_kept _ w_empty Hone).
Defined.

(** * Further properties of the receivers *)

(** ** Cache invalidation of posts and comments *)

Lemma cache_deletes_app tr1 tr2 :
  cache_deletes (tr1 ++ tr2) = cache_deletes tr1 ++ cache_deletes tr2.
Proof. apply omap_app. Qed.

(** X1.  With no collaborator failing, the receiver of a saved post deletes
    the four keys [latest_news], [news_list], [post_<id>] and
    [categories_list], in this order and once each, when the post was
    created, whether a notification is scheduled, run at once or not due;
    for the save of an existing post it deletes nothing. *)
Theorem post_creation_invalidates_four_keys (instance : Post) (created : bool) (w : World) :
  faults w = [] →
  (handle_post_save instance created w).1 = Ok tt ∧
  cache_deletes (trace (handle_post_save instance created w).2) =
    cache_deletes (trace w) ++ (if created then post_keys instance else []).
Proof.
  intros Hf. world w. destruct created; [| simpl; by rewrite app_nil_r].
  unfold handle_post_save, categories_exists, transaction_on_commit, cache_delete,
    run_deferred, process_post_notifications, process_post_notifications_try,
    Post_objects_get. run.
  destruct (ps !! pk instance) as [row|] eqn:Hrow;
    [destruct (bool_decide (categories row = [])) |]; simpl; run;
    try (destruct a; run; rewrite ?Hrow; try destruct (ptype row));
    unfold send_notifications_to_subscribers,
      EmailService_send_immediate_article_notification; run;
    (split; [reflexivity |]); rewrite !cache_deletes_app; simpl;
    rewrite ?app_nil_r; trace_eq.
Qed.

Lemma post_creation_invalidates_four_keys_witness :
  faults w_txn = [] ∧
  cache_deletes (trace (handle_post_save budget true w_txn).2) =
    ["latest_news"; "news_list"; "post_7"; "categories_list"]%string.
Proof.
  split; [reflexivity |].
  exact (proj2 (post_creation_invalidates_four_keys budget true w_txn eq_refl)).
Defined.

(** X2.  With the cache answering, the receiver of a saved comment deletes
    the keys [post_<id>_comments] and [post_<id>_comments_count] of the
    commented post, once each, when the comment was created, and nothing
    when an existing comment was saved. *)
Theorem comment_creation_invalidates_both_keys (instance : Comment) (created : bool) (w : World) :
  faults w = [] →
  (handle_new_comment instance created w).1 = Ok tt ∧
  cache_deletes (trace (handle_new_comment instance created w).2) =
    cache_deletes (trace w) ++ (if created then comment_keys instance else []).
Proof.
  intros Hf. world w. destruct created; [| simpl; by rewrite app_nil_r].
  unfold handle_new_comment, cache_delete. run.
  split; [reflexivity |]. rewrite !cache_deletes_app. simpl.
  rewrite ?app_nil_r. trace_eq.
Qed.

Lemma comment_creation_invalidates_both_keys_witness :
  faults w_txn = [] ∧
  cache_deletes (trace (handle_new_comment (mkComment alice budget) true w_txn).2) =
    ["post_7_comments"; "post_7_comments_count"]%string.
Proof.
  split; [reflexivity |].
  exact (proj2 (comment_creation_invalidates_both_keys
                  (mkComment alice budget) true w_txn eq_refl)).
Defined.

(** ** Sign-up and the provisioning of authors *)

(** [run], also through the fields of a token that was just built. *)
Ltac run_token :=
  repeat (progress (run; cbn [activated token_pk token_user token created_at andb])).

Lemma authors_of_head user d key author rest :
  authors_of user d = (key, author) :: rest →
  authors d !! key = Some author ∧ user_id (author_user author) = user_id user.
Proof.
  unfold authors_of. intros Hof.
  assert ((key, author) ∈ map_to_list
            (filter (λ kv : Z * Author, user_id (author_user kv.2) = user_id user)
                    (authors d))) as Hin by (rewrite Hof; set_solver).
  by apply elem_of_map_to_list, map_lookup_filter_Some in Hin.
Qed.

Lemma welcome_emails_app tr1 tr2 :
  welcome_emails (tr1 ++ tr2) = welcome_emails tr1 ++ welcome_emails tr2.
Proof. apply omap_app. Qed.

Lemma success_emails_app tr1 tr2 :
  success_emails (tr1 ++ tr2) = success_emails tr1 ++ success_emails tr2.
Proof. apply omap_app. Qed.

Lemma errors_app tr1 tr2 : errors (tr1 ++ tr2) = errors tr1 ++ errors tr2.
Proof. apply omap_app. Qed.

(** X3.  With no collaborator failing and at most one Author row of the
    user, the sign-up receiver returns with the user in the 'common' group,
    with an Author row, and with a new unactivated token of the user stored
    under a key that was free; it sends one welcome e-mail, whose link is
    [SITE_URL/accounts/activate/<token>/] for the value of that token, no
    activation-success e-mail, and logs no error. *)
Theorem signup_provisions_and_welcomes (user : User) (w : World) :
  faults w = [] →
  (length (authors_of user (db w)) ≤ 1)%nat →
  let w' := (handle_user_signed_up user w).2 in
  (handle_user_signed_up user w).1 = Ok tt ∧
  "common"%string ∈ groups (db w') ∧
  (user_id user, "common"%string) ∈ user_groups (db w') ∧
  has_author user (db w') ∧
  (∃ key instance,
     tokens (db w) !! key = None ∧
     tokens (db w') = <[key := instance]> (tokens (db w)) ∧
     token_user instance = user ∧ activated instance = false ∧
     welcome_emails (trace w') =
       welcome_emails (trace w) ++
       [(user, (SITE_URL w +:+ "/accounts/activate/" +:+ token instance +:+ "/")%string)]) ∧
  success_emails (trace w') = success_emails (trace w) ∧
  errors (trace w') = errors (trace w).
Proof.
  intros Hf Hone. world w.
  unfold handle_user_signed_up, handle_user_signed_up_try, Group_objects_get_or_create,
    groups_add, Author_objects_get_or_create, Author_objects_create,
    ActivationToken_create_token, ActivationToken_objects_create, ActivationToken_save,
    handle_activation_token_save, EmailService_send_welcome_email.
  unfold authors_of in *. cbn [authors db] in Hone. run.
  destruct (bool_decide ("common"%string ∈ g)) eqn:Hg; run;
    cbn [authors];
    (destruct (map_to_list _) as [|[key author] [|? ?]] eqn:Hof; [| | simpl in Hone; lia]);
    run_token;
    (split; [reflexivity |]);
    (split; [try (apply bool_decide_eq_true in Hg); set_solver |]);
    (split; [set_solver |]);
    (split; [first [ eexists _, _; split; [apply lookup_insert_eq | done]
                   | apply (authors_of_head user (mkDB g ug au tk ps)) in Hof as [? ?];
                     eexists _, _; split; [eassumption | done] ] |]);
    (split; [eexists _, _; split; [apply fresh_token_pk |]; split; [reflexivity |];
             split; [reflexivity |]; split; [reflexivity |];
             rewrite !welcome_emails_app; simpl; rewrite ?app_nil_r; trace_eq |]);
    rewrite !success_emails_app, !errors_app; simpl; by rewrite ?app_nil_r.
Qed.

Lemma signup_provisions_and_welcomes_witness :
  let w' := (handle_user_signed_up alice w_empty).2 in
  faults w_empty = [] ∧
  (length (authors_of alice (db w_empty)) ≤ 1)%nat ∧
  (handle_user_signed_up alice w_empty).1 = Ok tt ∧
  (1, "common"%string) ∈ user_groups (db w') ∧
  has_author alice (db w') ∧
  errors (trace w') = [].
Proof.
  assert (length (authors_of alice (db w_empty)) ≤ 1)%nat as Hone by (vm_compute; lia).
  destruct (signup_provisions_and_welcomes alice w_empty eq_refl Hone)
    as (Hok & _ & Hcommon & Hauthor & _ & _ & Herr).
  split; [reflexivity |]. split; [exact Hone |]. split; [exact Hok |].
  split; [exact Hcommon |]. split; [exact Hauthor | exact Herr].
Defined.

Lemma has_author_of_rows user d :
  authors_of user d ≠ [] → has_author user d.
Proof.
  destruct (authors_of user d) as [|[key author] rest] eqn:Hof; [done |]. intros _.
  apply authors_of_head in Hof as [? ?]. by exists key, author.
Qed.

Lemma has_author_created user (au : gmap Z Author) g ug tk ps :
  has_author user (mkDB g ug (<[fresh (dom au) := mkAuthor user]> au) tk ps).
Proof. exists (fresh (dom au)), (mkAuthor user). split; [apply lookup_insert_eq | done]. Qed.

Lemma has_author_frame user g ug au tk ps g' ug' tk' ps' :
  has_author user (mkDB g ug au tk ps) → has_author user (mkDB g' ug' au tk' ps').
Proof. intros (key & author & ? & ?). by exists key, author. Qed.

(** X4.  With no collaborator failing, the save of a newly created user,
    staff or not, already in 'common' or not, leaves the user with an Author
    row once [post_save] has reached the backup receiver and the profile
    receiver. *)
Theorem new_user_gets_an_author (instance : User) (w : World) :
  faults w = [] →
  has_author instance (db (send_user_saved instance true w).2).
Proof.
  intros Hf. world w.
  unfold send_user_saved, handle_user_post_save, create_author_profile, hasattr_author,
    groups_filter_exists, Group_objects_get_or_create, groups_add,
    Author_objects_get_or_create, Author_objects_create.
  run.
  assert (∀ d, bool_decide (authors_of instance d = []) = false → has_author instance d)
    as Hrows by (intros d Hd; apply has_author_of_rows; by apply bool_decide_eq_false in Hd).
  destruct (is_staff instance); run.
  - destruct (bool_decide _) eqn:Hnone; run;
      [apply has_author_created | by apply Hrows].
  - destruct (bool_decide ((user_id instance, "common"%string) ∈ ug)); run.
    + destruct (bool_decide _) eqn:Hnone; run;
        [apply has_author_created | by apply Hrows].
    + destruct (bool_decide ("common"%string ∈ g)); run;
        (destruct (authors_of instance _) as [|[key author] [|? ?]] eqn:Hof; run;
         [ destruct (bool_decide _) eqn:Hnone; run;
           [apply has_author_created | by apply Hrows]
         | destruct (bool_decide _) eqn:Hnone; run;
           [apply has_author_created | by apply Hrows]
         | eapply has_author_frame, has_author_of_rows; by rewrite Hof ]).
Qed.

Lemma new_user_gets_an_author_witness :
  faults w_empty = [] ∧ has_author bob (db (send_user_saved bob true w_empty).2).
Proof.
  split; [reflexivity |]. exact (new_user_gets_an_author bob w_empty eq_refl).
Defined.

(** X5.  The backup receiver does nothing to the tables for a save that did
    not create the user, for a staff user, and for a user who is in the
    'common' group already: such a user gets no Author row from it, also
    when none is stored.  (The membership query, where it is made, is taken
    not to fail.) *)
Theorem backup_receiver_skips_known_users (instance : User) (created : bool) (w : World) :
  hd false (faults w) = false →
  created = false ∨ is_staff instance = true ∨
    (user_id instance, "common"%string) ∈ user_groups (db w) →
  (handle_user_post_save instance created w).1 = Ok tt ∧
  db (handle_user_post_save instance created w).2 = db w.
Proof.
  intros Hf Hskip. world w. unfold handle_user_post_save, groups_filter_exists.
  destruct created; [| done]. destruct (is_staff instance); [done |].
  destruct Hskip as [? | [? | Hin]]; try done.
  destruct f as [|[] f]; try done; run;
    by rewrite (bool_decide_eq_true_2 _ Hin).
Qed.

Lemma backup_receiver_skips_known_users_witness :
  let w := set_db (mkDB ∅ {[(1, "common"%string)]} ∅ ∅ ∅) w_empty in
  hd false (faults w) = false ∧
  (handle_user_post_save alice true w).1 = Ok tt ∧
  authors (db (handle_user_post_save alice true w).2) = ∅.
Proof.
  set (w := set_db (mkDB ∅ {[(1, "common"%string)]} ∅ ∅ ∅) w_empty).
  assert ((user_id alice, "common"%string) ∈ user_groups (db w)) as Hin
    by (vm_compute; set_solver).
  destruct (backup_receiver_skips_known_users alice true w eq_refl
              (or_intror (or_intror Hin))) as [Hok Hdb].
  split; [reflexivity |]. split; [exact Hok |]. by rewrite Hdb.
Defined.

(** ** The deletion of an author *)

(** X6.  The receiver of a deleted Author deletes the Group rows named
    'authors' that the author's user belongs to, not the user's membership:
    when the user is in 'authors' (and the group store answers), the group
    itself is gone afterwards and nobody is a member of it any more, while
    every membership in another group stays; when the user is not in
    'authors', the tables are left as they were. *)
Theorem author_deletion_drops_the_group_for_everyone (instance : Author) (w : World) :
  hd false (faults w) = false →
  let user := author_user instance in
  let w' := (cleanup_user_group instance w).2 in
  (cleanup_user_group instance w).1 = Ok tt ∧
  if bool_decide ((user_id user, "authors"%string) ∈ user_groups (db w))
  then ("authors"%string ∉ groups (db w')) ∧
       (∀ uid, (uid, "authors"%string) ∉ user_groups (db w')) ∧
       (∀ uid name, name ≠ "authors"%string →
          ((uid, name) ∈ user_groups (db w') ↔ (uid, name) ∈ user_groups (db w)))
  else db w' = db w.
Proof.
  intros Hf. world w.
  unfold cleanup_user_group, cleanup_user_group_try, groups_filter_delete.
  destruct f as [|[] f]; simpl in Hf; try discriminate Hf; run;
    (destruct (bool_decide _) eqn:Hin; run; (split; [reflexivity |]); [| reflexivity]);
    (split; [rewrite not_elem_of_difference, elem_of_singleton; by right |]);
    (split; [intros uid | intros uid name Hne]);
    rewrite elem_of_filter; simpl; tauto.
Qed.

Lemma author_deletion_drops_the_group_for_everyone_witness :
  let w := set_db (mkDB {["authors"; "common"]}%string
                        {[(1, "authors"); (2, "authors"); (2, "common")]}%string
                        {[5 := mkAuthor alice]} ∅ ∅) w_empty in
  let w' := (cleanup_user_group (mkAuthor alice) w).2 in
  hd false (faults w) = false ∧
  (2, "authors"%string) ∈ user_groups (db w) ∧
  ((2, "authors"%string) ∉ user_groups (db w')) ∧
  (2, "common"%string) ∈ user_groups (db w').
Proof.
  set (w := set_db (mkDB {["authors"; "common"]}%string
                        {[(1, "authors"); (2, "authors"); (2, "common")]}%string
                        {[5 := mkAuthor alice]} ∅ ∅) w_empty).
  pose proof (author_deletion_drops_the_group_for_everyone (mkAuthor alice) w eq_refl)
    as [_ Hdrop].
  assert ((user_id alice, "authors"%string) ∈ user_groups (db w)) as Hin
    by (vm_compute; set_solver).
  cbn zeta in Hdrop. rewrite (bool_decide_eq_true_2 _ Hin) in Hdrop.
  destruct Hdrop as (_ & Hnone & Hkeep).
  split; [reflexivity |]. split; [vm_compute; set_solver |].
  split; [apply Hnone |]. apply Hkeep; [done |]. vm_compute; set_solver.
Defined.

(** ** Notifications outside a transaction and without a guard *)

(** An event whose guard holds, with no transaction open and no collaborator
    failing. *)
Lemma send_post_event_autocommit (ev : post_event) (w : World) :
  in_atomic_block w = false → faults w = [] → guard ev (db w) = true →
  ∃ w', send_post_event ev w = (Ok tt, w') ∧
        run_on_commit w' = run_on_commit w ∧
        started (trace w') = started (trace w) ++ [pk (event_post ev)].
Proof.
  intros Ha Hf Hg. world w. destruct ev as [instance [] | instance action]; simpl in Hg.
  - cbn [event_post].
    unfold send_post_event, handle_post_save, handle_new_article_for_weekly_digest,
      categories_exists, transaction_on_commit, cache_delete, run_deferred,
      process_post_notifications, process_post_notifications_try, Post_objects_get.
    cbn [for_each]. run. destruct (ps !! pk instance) as [row|] eqn:Hrow; [| done].
    rewrite Hg. run. rewrite Hrow.
    destruct (ptype row);
      unfold send_notifications_to_subscribers,
        EmailService_send_immediate_article_notification;
      destruct (bool_decide (ptype instance = ARTICLE)); run;
      (eexists; (split; [reflexivity |]); run; (split; [reflexivity |]);
       rewrite !started_app; cbn -[str String.app]; rewrite ?app_nil_r; trace_eq).
  - discriminate Hg.
  - cbn [event_post].
    unfold send_post_event, handle_post_categories_changed, transaction_on_commit,
      run_deferred. run. rewrite Hg. run.
    destruct (process_post_notifications_started instance
                (mkWorld (mkDB g ug au tk ps) c n url us false q []
                   ((tr ++ [Log DEBUG (M2MSignal action (title instance))]) ++
                    [Log INFO (CategoriesAdded (title instance))])))
      as (Hok & Hst & _ & Hq).
    destruct (process_post_notifications instance _) as [[[]|e] w1]; [| done].
    eexists; (split; [reflexivity |]). simpl in *. split; [done |].
    rewrite Hst, !started_app. simpl. by rewrite !app_nil_r.
Qed.

(** X7.  With no transaction open (autocommit), a post creation or a
    category addition whose guard holds does not defer anything: the
    notification action runs once, inside the receiver, and no callback is
    left pending.  (No collaborator is taken to fail.) *)
Theorem notification_runs_at_once_without_a_transaction (ev : post_event) (w : World) :
  in_atomic_block w = false →
  faults w = [] →
  guard ev (db w) = true →
  (send_post_event ev w).1 = Ok tt ∧
  run_on_commit (send_post_event ev w).2 = run_on_commit w ∧
  started (trace (send_post_event ev w).2) = started (trace w) ++ [pk (event_post ev)].
Proof.
  intros Ha Hf Hg.
  destruct (send_post_event_autocommit ev w Ha Hf Hg) as (w' & Hrun & Hq & Hst).
  by rewrite Hrun.
Qed.

Lemma notification_runs_at_once_without_a_transaction_witness :
  let w := set_txn false [] w_txn in
  let ev := CategoriesChanged budget "post_add" in
  in_atomic_block w = false ∧ faults w = [] ∧ guard ev (db w) = true ∧
  run_on_commit (send_post_event ev w).2 = [] ∧
  started (trace (send_post_event ev w).2) = [7].
Proof.
  pose proof (notification_runs_at_once_without_a_transaction
                (CategoriesChanged budget "post_add") (set_txn false [] w_txn)
                eq_refl eq_refl eq_refl) as (_ & Hq & Hst).
  split; [reflexivity |]. split; [reflexivity |]. split; [reflexivity |].
  split; [exact Hq | exact Hst].
Defined.

(** X8.  An event whose guard fails (the save of an existing post, a created
    post without stored categories, a category signal other than
    [post_add]) schedules nothing and runs nothing, inside a transaction and
    outside of one: the pending callbacks, the started runs and the
    notifications sent are as before.  (No collaborator is taken to fail.) *)
Theorem unguarded_event_schedules_nothing (ev : post_event) (w : World) :
  faults w = [] →
  guard ev (db w) = false →
  (send_post_event ev w).1 = Ok tt ∧
  run_on_commit (send_post_event ev w).2 = run_on_commit w ∧
  started (trace (send_post_event ev w).2) = started (trace w) ∧
  notifications (trace (send_post_event ev w).2) = notifications (trace w).
Proof.
  intros Hf Hg. world w. destruct ev as [instance [] | instance action]; simpl in Hg.
  - unfold send_post_event, handle_post_save, handle_new_article_for_weekly_digest,
      categories_exists, cache_delete. cbn [for_each]. run. rewrite Hg. run.
    destruct (bool_decide (ptype instance = ARTICLE)); run;
      (split; [reflexivity |]); (split; [reflexivity |]);
      rewrite !started_app, !notifications_app; simpl; by rewrite ?app_nil_r.
  - simpl. by rewrite ?app_nil_r.
  - unfold send_post_event, handle_post_categories_changed. run. rewrite Hg. run.
    (split; [reflexivity |]); (split; [reflexivity |]).
    rewrite !started_app, !notifications_app; simpl; by rewrite ?app_nil_r.
Qed.

Lemma unguarded_event_schedules_nothing_witness :
  let ev := CategoriesChanged budget "post_remove" in
  faults w_txn = [] ∧ guard ev (db w_txn) = false ∧
  run_on_commit (send_post_event ev w_txn).2 = [] ∧
  started (trace (send_post_event ev w_txn).2) = [].
Proof.
  pose proof (unguarded_event_schedules_nothing
                (CategoriesChanged budget "post_remove") w_txn eq_refl eq_refl)
    as (_ & Hq & Hst & _).
  split; [reflexivity |]. split; [reflexivity |]. split; [exact Hq | exact Hst].
Defined.

(** ** The deferred action and the commit under failures *)


(** X10.  The deferred action only reads the store: in every world, also
    when the lookup or the e-mail call fails, it returns normally and leaves
    the tables, the cache and the pending callbacks as they were. *)
Theorem deferred_action_leaves_the_store_alone (post : Post) (w : World) :
  (process_post_notifications post w).1 = Ok tt ∧
  db (process_post_notifications post w).2 = db w ∧
  cache (process_post_notifications post w).2 = cache w ∧
  run_on_commit (process_post_notifications post w).2 = run_on_commit w.
Proof.
  world w.
  unfold process_post_notifications, process_post_notifications_try, Post_objects_get,
    process_post_notifications_except.
  destruct f as [|[] f]; run;
    try (destruct (ps !! pk post) as [row|]; [destruct (ptype row) |]);
    unfold send_notifications_to_subscribers,
      EmailService_send_immediate_article_notification; run;
    try (destruct f as [|[] f]; run); done.
Qed.

(** X11.  The cache receivers of subscriptions and comments never write to
    the tables, never schedule a callback and never send an e-mail, whether
    the cache answers or fails. *)
Theorem cache_receivers_touch_only_the_cache (w : World) :
  (∀ ev, leaves_store_and_mail (send_subscription_event ev) w) ∧
  (∀ instance created, leaves_store_and_mail (handle_new_comment instance created) w).
Proof.
  unfold leaves_store_and_mail. world w. split.
  - intros [instance [] | instance]; simpl;
      unfold handle_new_subscription, handle_subscription_removed, cache_delete;
      destruct f as [|[] [|[] f]]; run;
      rewrite ?success_emails_app, ?notifications_app; simpl;
      by rewrite ?app_nil_r.
  - intros instance []; simpl; unfold handle_new_comment, cache_delete;
      destruct f as [|[] [|[] f]]; run;
      rewrite ?success_emails_app, ?notifications_app; simpl;
      by rewrite ?app_nil_r.
Qed.

(** ** Failures that are not caught, and failures that cut work short *)

(** X12.  The receiver of a saved post does not catch a failure of the
    cache: when the query for the categories succeeds and the first
    [cache.delete] fails, the exception leaves the receiver, no key has been
    deleted, and inside a transaction the notification callback of a
    guard-passing creation is registered all the same. *)
Theorem post_receiver_lets_a_cache_failure_out (instance : Post) (w : World) (rest : list bool) :
  in_atomic_block w = true →
  faults w = false :: true :: rest →
  let w' := (handle_post_save instance true w).2 in
  (handle_post_save instance true w).1 = Raise (CollaboratorError CacheService) ∧
  cache_deletes (trace w') = cache_deletes (trace w) ∧
  cache w' = cache w ∧
  run_on_commit w' =
    run_on_commit w ++
    (if guard (PostSaved instance true) (db w) then [NotifyPost instance] else []).
Proof.
  intros Ha Hf. world w.
  unfold handle_post_save, categories_exists, transaction_on_commit, cache_delete. run.
  destruct (ps !! pk instance) as [row|]; [destruct (bool_decide (categories row = [])) |];
    simpl; run; rewrite ?cache_deletes_app; simpl; by rewrite ?app_nil_r.
Qed.

Lemma post_receiver_lets_a_cache_failure_out_witness :
  let w := set_faults [false; true] w_txn in
  in_atomic_block w = true ∧ faults w = [false; true] ∧
  (handle_post_save budget true w).1 = Raise (CollaboratorError CacheService) ∧
  run_on_commit (handle_post_save budget true w).2 = [NotifyPost budget].
Proof.
  pose proof (post_receiver_lets_a_cache_failure_out budget (set_faults [false; true] w_txn)
                [] eq_refl eq_refl) as (Hraise & _ & _ & Hq).
  split; [reflexivity |]. split; [reflexivity |]. split; [exact Hraise | exact Hq].
Defined.

(** X13.  In the activation receiver the role grant comes after the e-mail
    inside one [try]: when the activation-success e-mail fails for a save
    that activates an existing token, the failure is logged, nothing is
    granted and the tables stay as they were, and the receiver returns
    normally. *)
Theorem failed_activation_mail_blocks_the_grant
    (instance : ActivationToken) (w : World) (rest : list bool) :
  faults w = true :: rest →
  activated instance = true →
  let w' := (handle_activation_token_save instance false w).2 in
  (handle_activation_token_save instance false w).1 = Ok tt ∧
  db w' = db w ∧
  grants (trace w') = grants (trace w) ∧
  success_emails (trace w') = success_emails (trace w) ∧
  errors (trace w') = errors (trace w) ++ [ActivationFailed (CollaboratorError EmailSvc)].
Proof.
  intros Hf Hact. world w.
  unfold handle_activation_token_save, handle_activation_token_save_try,
    EmailService_send_activation_success_email. rewrite Hact. run.
  unfold grants. rewrite !success_emails_app, !errors_app, !omap_app. simpl.
  by rewrite !app_nil_r.
Qed.

Lemma failed_activation_mail_blocks_the_grant_witness :
  let w := set_faults [true] w_pending in
  let w' := (handle_activation_token_save (set_activated true bob_token) false w).2 in
  faults w = [true] ∧ activated (set_activated true bob_token) = true ∧
  user_groups (db w') = ∅ ∧
  errors (trace w') = [ActivationFailed (CollaboratorError EmailSvc)].
Proof.
  pose proof (failed_activation_mail_blocks_the_grant (set_activated true bob_token)
                (set_faults [true] w_pending) [] eq_refl eq_refl)
    as (_ & Hdb & _ & _ & Herr).
  split; [reflexivity |]. split; [reflexivity |].
  split; [by rewrite Hdb | exact Herr].
Defined.

(** X14.  When the first call of the sign-up receiver, the lookup of the
    'common' group, fails, the receiver returns normally having provisioned
    nothing: the tables are as before, no welcome e-mail is sent, and the
    one error logged carries the user's e-mail and the exception. *)
Theorem failed_signup_provisions_nothing (user : User) (w : World) (rest : list bool) :
  faults w = true :: rest →
  let w' := (handle_user_signed_up user w).2 in
  (handle_user_signed_up user w).1 = Ok tt ∧
  db w' = db w ∧
  welcome_emails (trace w') = welcome_emails (trace w) ∧
  errors (trace w') =
    errors (trace w) ++ [SignupFailed (email user) (CollaboratorError GroupStore)].
Proof.
  intros Hf. world w.
  unfold handle_user_signed_up, handle_user_signed_up_try, Group_objects_get_or_create.
  run. rewrite !welcome_emails_app, !errors_app. simpl. by rewrite !app_nil_r.
Qed.

Lemma failed_signup_provisions_nothing_witness :
  let w := set_faults [true] w_empty in
  faults w = [true] ∧
  (handle_user_signed_up alice w).1 = Ok tt ∧
  errors (trace (handle_user_signed_up alice w).2) =
    [SignupFailed "alice@example.org" (CollaboratorError GroupStore)].
Proof.
  pose proof (failed_signup_provisions_nothing alice (set_faults [true] w_empty) []
                eq_refl) as (Hok & _ & _ & Herr).
  split; [reflexivity |]. split; [exact Hok | exact Herr].
Defined.

(** ** The retention sweep, run again *)

Lemma cleanup_expired_tokens_run (w : World) :
  faults w = [] → cleanup_expired_tokens w = (Ok PyNone, swept w).
Proof.
  intros Hf. world w.
  unfold cleanup_expired_tokens, cleanup_expired_tokens_try, QuerySet_count,
    QuerySet_delete, swept. run.
  match goal with |- context [0 <? ?c] => destruct (0 <? c) end; by run.
Qed.

Lemma nothing_expired_after_sweep cutoff (tk : gmap Z ActivationToken) :
  filter (λ kv : Z * ActivationToken, expired cutoff kv.2)
    (filter (λ kv : Z * ActivationToken, ¬ expired cutoff kv.2) tk) = ∅.
Proof.
  apply map_empty. intros key. apply map_lookup_filter_None. right.
  intros t Hkey Hexp. apply map_lookup_filter_Some in Hkey as [_ Hnot]. by apply Hnot.
Qed.

(** X15.  The sweep is idempotent: run again at the same time, with no
    collaborator failing, it finds nothing to delete, logs nothing and
    leaves the world exactly as the first run left it. *)
Theorem second_sweep_changes_nothing (w : World) :
  faults w = [] →
  let w1 := (cleanup_expired_tokens w).2 in
  cleanup_expired_tokens w1 = (Ok PyNone, w1).
Proof.
  intros Hf. cbn zeta. rewrite (cleanup_expired_tokens_run w Hf). cbn [snd].
  assert (faults (swept w) = []) as Hf1
    by (unfold swept; destruct (0 <? _); [exact Hf | exact Hf]).
  rewrite (cleanup_expired_tokens_run _ Hf1). f_equal.
  unfold swept at 1.
  assert (Z.of_nat (size (expired_tokens (now (swept w) - timedelta_days 7)
                            (db (swept w)))) = 0) as ->; [| done].
  unfold swept. destruct (0 <? _) eqn:Hc.
  - unfold expired_tokens. cbn [now emit set_db db tokens set_tokens].
    by rewrite nothing_expired_after_sweep, map_size_empty.
  - apply Z.ltb_ge in Hc. lia.
Qed.

Lemma second_sweep_changes_nothing_witness :
  faults w_sweep = [] ∧
  dom (tokens (db (cleanup_expired_tokens (cleanup_expired_tokens w_sweep).2).2)) =
    {[1; 4]} ∧
  trace (cleanup_expired_tokens (cleanup_expired_tokens w_sweep).2).2 =
    [Log INFO (TokensCleaned 2)].
Proof.
  split; [reflexivity |].
  rewrite (second_sweep_changes_nothing w_sweep eq_refl). cbn [snd].
  vm_compute. auto.
Defined.

(** ** Cache keys of different entities *)

(** [str] prints different integers differently. *)
Lemma str_inj (a b : Z) : str a = str b → a = b.
Proof.
  unfold str. intros Heq. apply DecimalZ.to_int_inj.
  assert (∀ z, NilZero.int_of_string (NilZero.string_of_int (Z.to_int z)) = Some (Z.to_int z))
    as Hround.
  { intros z. apply NilZero.isi; destruct z; simpl; try discriminate;
      intros [= Hnil]; by apply Unsigned.to_uint_nonnil in Hnil. }
  apply (f_equal NilZero.int_of_string) in Heq. rewrite !Hround in Heq. congruence.
Qed.

Lemma length_append (s1 s2 : string) :
  String.length (s1 +:+ s2) = (String.length s1 + String.length s2)%nat.
Proof. induction s1 as [|c s1 IH]; simpl; [done | by rewrite IH]. Qed.

Lemma append_inv_tail (s1 s2 t : string) : s1 +:+ t = s2 +:+ t → s1 = s2.
Proof.
  revert s2. induction s1 as [|c s1 IH]; intros [|c' s2] Heq; simpl in *.
  - done.
  - apply (f_equal String.length) in Heq.
    rewrite !length_append in Heq. simpl in Heq. lia.
  - apply (f_equal String.length) in Heq.
    rewrite !length_append in Heq. simpl in Heq. lia.
  - injection Heq as -> Heq. f_equal. by apply IH.
Qed.

(** X16.  The cache keys do not collide: the keys deleted for a
    subscription of one user to one category are never the keys of a
    subscription of another user to another category, since the decimal
    form of the id inside a key tells the ids apart and a user key is never
    a category key. *)
Theorem subscription_keys_do_not_collide (s1 s2 : Subscription) (key : string) :
  user_id (sub_user s1) ≠ user_id (sub_user s2) →
  category_id (sub_category s1) ≠ category_id (sub_category s2) →
  key ∈ subscription_keys s1 → key ∉ subscription_keys s2.
Proof.
  intros Hu Hc H1 H2. unfold subscription_keys in *.
  apply elem_of_cons in H1 as [-> | H1], H2 as [H2 | H2];
    rewrite ?list_elem_of_singleton in *; subst.
  - apply Hu, str_inj. apply String.app_inj in H2. by apply append_inv_tail in H2.
  - discriminate H2.
  - discriminate H2.
  - apply Hc, str_inj. apply String.app_inj in H2. by apply append_inv_tail in H2.
Qed.

Lemma subscription_keys_do_not_collide_witness :
  user_id (sub_user alice_news) ≠ user_id (sub_user bob_sport) ∧
  category_id (sub_category alice_news) ≠ category_id (sub_category bob_sport) ∧
  "user_1_subscriptions"%string ∈ subscription_keys alice_news ∧
  ("user_1_subscriptions"%string ∉ subscription_keys bob_sport).
Proof.
  assert (user_id (sub_user alice_news) ≠ user_id (sub_user bob_sport)) as Hu by done.
  assert (category_id (sub_category alice_news) ≠ category_id (sub_category bob_sport))
    as Hc by done.
  assert ("user_1_subscriptions"%string ∈ subscription_keys alice_news) as Hin
    by (vm_compute; set_solver).
  split; [exact Hu |]. split; [exact Hc |]. split; [exact Hin |].
  exact (subscription_keys_do_not_collide alice_news bob_sport _ Hu Hc Hin).
Defined.
